(** * ebs-bootstrap: attach, initialise and mount an EBS volume

    A shallow embedding of [ebs.go] (functions [volumeFromID],
    [attachVolume], [ensureVolumeInited], [ensureVolumeMounted]).

    The program talks to three collaborators: the EC2 API, the operating
    system ([os.Stat], [os/exec]) and the clock ([time.Sleep]).  They are
    modelled as deterministic handlers over an abstract [World]; every
    function of the program is a computation that threads the world and
    emits the list of calls it made, in order.  Calls to [log] are not
    modelled. *)

From Stdlib Require Import String Ascii List ZArith Bool Lia.
Import ListNotations.
Local Open Scope string_scope.
Local Open Scope Z_scope.
Local Open Scope list_scope.

(** ** Go errors *)

(** Errors that come from outside the program: the SDK ([awserr.Error] or
    any other error of a request) and the operating system ([*PathError],
    [*exec.ExitError]). *)
Inductive ext_error : Type :=
| AwsError (code message : string)
| SysError (message : string).

(** Error values the program handles: the ones it creates itself with
    [errors.New] / [fmt.Errorf], the ones it receives, and the ones it
    annotates with [errors.Wrap]. *)
Inductive err : Type :=
| New (message : string)
| External (e : ext_error)
| WithMessage (cause : err) (message : string).

(** A Go [error] is an interface value: [nil] or an error. *)
Definition error : Type := option err.
Definition nil : error := None.

(** Modelled from the spec: the vendored package github.com/pkg/errors is
    not under src/.  [errors.Wrap] annotates an error with a message; as the
    package documents, if the error is nil, Wrap returns nil. *)
Definition Wrap (e : error) (message : string) : error :=
  match e with
  | None => None
  | Some cause => Some (WithMessage cause message)
  end.

Definition lift_ext (e : option ext_error) : error := option_map External e.

(** ** The SDK types the program reads

    The SDK stores every field behind a pointer; the provider fills the
    fields read here, so the embedding stores the pointee. *)
Record VolumeAttachment : Type := {
  Device : string;
  InstanceId : string;
  State : string
}.

Record Volume : Type := {
  VolumeId : string;
  Attachments : list VolumeAttachment
}.

Record Filter : Type := {
  Name : string;
  Values : list string
}.

Record DescribeVolumesInput : Type := {
  Filters : list Filter;
  VolumeIds : list string
}.

Record DescribeVolumesOutput : Type := {
  Volumes : list Volume
}.

Record AttachVolumeInput : Type := {
  av_Device : string;
  av_InstanceId : string;
  av_VolumeId : string
}.

Definition VolumeAttachmentStateAttached : string := "attached".

(** ** Durations and the backoff schedule *)

Definition Duration : Type := Z.
Definition Millisecond : Duration := 1000000.
Definition Second : Duration := 1000 * Millisecond.

Record Backoff : Type := {
  attempt : nat;
  Factor : Z;
  Jitter : bool;
  Min : Duration;
  Max : Duration
}.

Definition maxInt64 : Z := 2 ^ 63 - 1 - 512.

(** Modelled from the spec: the vendored package github.com/jpillora/backoff
    is not under src/.  The delay of attempt number [k] is the minimum
    multiplied [k] times by the factor and kept between the minimum and the
    maximum; zero fields take the package defaults.  The factor is an
    integer here (the program uses 2) and jitter, which the program
    switches off, is not modelled. *)
Definition ForAttempt (b : Backoff) (k : nat) : Duration :=
  let min := if Min b <=? 0 then 100 * Millisecond else Min b in
  let max := if Max b <=? 0 then 10 * Second else Max b in
  if min >=? max then max
  else
    let factor := if Factor b <=? 0 then 2 else Factor b in
    let durf := min * factor ^ Z.of_nat k in
    if durf >? maxInt64 then max
    else if durf <? min then min
    else if durf >? max then max
    else durf.

(** [b.Duration()]: the delay of the current attempt, and the counter moves
    on. *)
Definition Backoff_Duration (b : Backoff) : Duration * Backoff :=
  (ForAttempt b (attempt b),
   {| attempt := S (attempt b); Factor := Factor b; Jitter := Jitter b;
      Min := Min b; Max := Max b |}).

(** ** Strings *)

(** [strings.Contains]: some suffix of [s] starts with [substr]. *)
Fixpoint Contains (s substr : string) : bool :=
  String.prefix substr s ||
  match s with
  | EmptyString => false
  | String _ rest => Contains rest substr
  end.

(** ** Calls to the outside, and the computations that make them *)

Inductive event : Type :=
| EvDescribeVolumes (input : DescribeVolumesInput)
                    (res : DescribeVolumesOutput + ext_error)
| EvAttachVolume (input : AttachVolumeInput) (res : option ext_error)
| EvStat (path : string) (res : option ext_error)
| EvSleep (d : Duration)
| EvExec (argv : list string) (stdout : string) (res : option ext_error).

Definition trace : Type := list event.

(** The collaborators of the process: the state of everything outside it
    and the calls that read and change that state. *)
Record Env : Type := {
  World : Type;
  (** [svc.DescribeVolumes] and [svc.AttachVolume] of the EC2 client. *)
  svc_DescribeVolumes :
    DescribeVolumesInput -> World -> (DescribeVolumesOutput + ext_error) * World;
  svc_AttachVolume : AttachVolumeInput -> World -> option ext_error * World;
  (** [os.Stat], of which the program only reads the error. *)
  os_Stat : string -> World -> option ext_error * World;
  (** Running a command to completion: what it wrote to standard output
      and its error. *)
  exec_Command : list string -> World -> (string * option ext_error) * World;
  (** [time.Sleep]: the world moves on while the process sleeps. *)
  time_Sleep : Duration -> World -> World
}.

(** The variables of the retry loop of [attachVolume]. *)
Record loop_vars : Type := {
  attachStarted : bool;
  attachSucceeded : bool;
  lastError : error;
  backoff : Backoff
}.

Definition set_lastError (v : loop_vars) (e : error) : loop_vars :=
  {| attachStarted := attachStarted v; attachSucceeded := attachSucceeded v;
     lastError := e; backoff := backoff v |}.

Definition set_attachStarted (v : loop_vars) (x : bool) : loop_vars :=
  {| attachStarted := x; attachSucceeded := attachSucceeded v;
     lastError := lastError v; backoff := backoff v |}.

Definition set_attachSucceeded (v : loop_vars) (x : bool) : loop_vars :=
  {| attachStarted := attachStarted v; attachSucceeded := x;
     lastError := lastError v; backoff := backoff v |}.

Definition set_backoff (v : loop_vars) (x : Backoff) : loop_vars :=
  {| attachStarted := attachStarted v; attachSucceeded := attachSucceeded v;
     lastError := lastError v; backoff := x |}.

(** How an iteration of the loop ends: [continue] (or falling off the end
    of the body) and [break]. *)
Inductive flow : Type := Continue | Break.

Section Program.

Variable env : Env.

(** The package-level flag [blockDevice], read by [attachVolume]. *)
Variable blockDevice : string.

Definition M (A : Type) : Type := World env -> A * World env * trace.

Definition ret {A} (a : A) : M A := fun w => (a, w, []).

Definition bind {A B} (m : M A) (k : A -> M B) : M B :=
  fun w =>
    let '(a, w1, t1) := m w in
    let '(b, w2, t2) := k a w1 in
    (b, w2, t1 ++ t2).

Notation "x <- m ;; k" := (bind m (fun x => k))
  (at level 61, m at next level, right associativity).

Definition DescribeVolumes (input : DescribeVolumesInput)
  : M (DescribeVolumesOutput + ext_error) :=
  fun w => let '(r, w') := svc_DescribeVolumes env input w in
           (r, w', [EvDescribeVolumes input r]).

Definition AttachVolume (input : AttachVolumeInput) : M (option ext_error) :=
  fun w => let '(r, w') := svc_AttachVolume env input w in
           (r, w', [EvAttachVolume input r]).

Definition Stat (path : string) : M (option ext_error) :=
  fun w => let '(r, w') := os_Stat env path w in (r, w', [EvStat path r]).

Definition Sleep (d : Duration) : M unit :=
  fun w => (tt, time_Sleep env d w, [EvSleep d]).

(** [cmd.Output()] returns the output and the error; [cmd.Run()] the
    error only. *)
Definition Output (argv : list string) : M (string * option ext_error) :=
  fun w => let '((out, r), w') := exec_Command env argv w in
           ((out, r), w', [EvExec argv out r]).

Definition Run (argv : list string) : M (option ext_error) :=
  r <- Output argv ;; ret (snd r).

(** ** volumeFromID *)

(** The filters of the query, lines 19-30. *)
Definition locate_input (volumeID az : string) : DescribeVolumesInput :=
  {| Filters := [ {| Name := "volume-id"; Values := [volumeID] |};
                  {| Name := "availability-zone"; Values := [az] |} ];
     VolumeIds := [] |}.

Definition volumeFromID (volumeID az : string) : M (option Volume * error) :=
  let input := locate_input volumeID az in
  r <- DescribeVolumes input ;;
  match r with
  | inr e => ret (None, Some (External e))
  | inl result =>
      match Volumes result with
      | [] => ret (None, Some (New ("cannot find volume with volume-id: " ++ volumeID)%string))
      | v :: _ => ret (Some v, nil)
      end
  end.

(** ** attachVolume *)

(** [len(volume.Attachments) > 0 &&
    *volume.Attachments[0].InstanceId == instanceID] *)
Definition already_attached (volume : Volume) (instanceID : string) : bool :=
  match Attachments volume with
  | [] => false
  | a0 :: _ => String.eqb (InstanceId a0) instanceID
  end.

(** Lines 79-83: no sleep before the first attempt. *)
Definition wait_step (attempts : nat) (v : loop_vars) : M loop_vars :=
  if negb (Nat.eqb attempts 0) then
    let '(duration, b') := Backoff_Duration (backoff v) in
    _ <- Sleep duration ;;
    ret (set_backoff v b')
  else ret v.

(** Lines 85-93: the attach request, unless one was accepted before.
    [inl] is the [continue] of line 89. *)
Definition issue_step (input : AttachVolumeInput) (v : loop_vars)
  : M (loop_vars + loop_vars) :=
  if negb (attachStarted v) then
    e <- AttachVolume input ;;
    match e with
    | Some e => ret (inl (set_lastError v (Some (External e))))
    | None => ret (inr (set_attachStarted v true))
    end
  else ret (inr v).

(** Lines 95-121: the confirmation poll. *)
Definition confirm_step (volume : Volume) (v : loop_vars) : M (flow * loop_vars) :=
  r <- DescribeVolumes {| Filters := []; VolumeIds := [VolumeId volume] |} ;;
  match r with
  | inr e => ret (Continue, set_lastError v (Some (External e)))
  | inl volumeDescs =>
      match Volumes volumeDescs with
      | [] => ret (Continue, v)
      | v0 :: _ =>
          match Attachments v0 with
          | [] => ret (Continue, v)
          | a0 :: _ =>
              if String.eqb (State a0) VolumeAttachmentStateAttached then
                e <- Stat blockDevice ;;
                match e with
                | Some e => ret (Continue, set_lastError v (Some (External e)))
                | None => ret (Break, set_attachSucceeded v true)
                end
              else ret (Continue, v)
          end
      end
  end.

(** The body of the loop, lines 77-121. *)
Definition attempt_body (input : AttachVolumeInput) (volume : Volume)
           (attempts : nat) (v : loop_vars) : M (flow * loop_vars) :=
  let v := set_lastError v (Some (New "Max attempts exceeded")) in
  v <- wait_step attempts v ;;
  r <- issue_step input v ;;
  match r with
  | inl v => ret (Continue, v)
  | inr v => confirm_step volume v
  end.

(** [for attempts := 0; attempts < maxAttempts; attempts++]: [n] is the
    number of values of [attempts] still below [maxAttempts].  The result
    carries the final value of [attempts]. *)
Fixpoint attempts_loop (input : AttachVolumeInput) (volume : Volume)
         (n : nat) (attempts : nat) (v : loop_vars) : M (nat * loop_vars) :=
  match n with
  | O => ret (attempts, v)
  | S n' =>
      r <- attempt_body input volume attempts v ;;
      match fst r with
      | Break => ret (attempts, snd r)
      | Continue => attempts_loop input volume n' (S attempts) (snd r)
      end
  end.

Definition initial_backoff : Backoff :=
  {| attempt := 0; Factor := 2; Jitter := false;
     Min := 5 * Second; Max := 100 * Second |}.

Definition initial_vars : loop_vars :=
  {| attachStarted := false; attachSucceeded := false; lastError := nil;
     backoff := initial_backoff |}.

Definition attach_input (instanceID : string) (volume : Volume) : AttachVolumeInput :=
  {| av_Device := blockDevice; av_InstanceId := instanceID;
     av_VolumeId := VolumeId volume |}.

(** The retry loop with its variables, lines 59-122. *)
Definition attach_retry (instanceID : string) (volume : Volume) (maxAttempts : Z)
  : M (nat * loop_vars) :=
  attempts_loop (attach_input instanceID volume) volume
                (Z.to_nat maxAttempts) 0%nat initial_vars.

Definition attachVolume (instanceID : string) (volume : Volume) (maxAttempts : Z)
  : M error :=
  if already_attached volume instanceID then ret nil
  else
    r <- attach_retry instanceID volume maxAttempts ;;
    if negb (attachSucceeded (snd r)) then
      ret (Wrap (lastError (snd r)) "Attaching volume failed")
    else ret nil.

(** ** ensureVolumeInited *)

Definition blkid_argv (blockDevice : string) : list string :=
  ["sudo"; "/usr/sbin/blkid"; blockDevice].

Definition mkfs_argv (blockDevice fileSystemFormatType : string) : list string :=
  ["sudo"; ("/usr/sbin/mkfs." ++ fileSystemFormatType)%string; blockDevice].

Definition ensureVolumeInited (blockDevice fileSystemFormatType : string) : M error :=
  e <- Run (blkid_argv blockDevice) ;;
  match e with
  | None => ret nil
  | Some _ =>
      e <- Run (mkfs_argv blockDevice fileSystemFormatType) ;;
      match e with
      | Some e =>
          ret (Wrap (Some (External e))
                    ("mkfs." ++ fileSystemFormatType ++ " failed")%string)
      | None => ret nil
      end
  end.

(** ** ensureVolumeMounted *)

Definition mkdir_argv (mountPoint : string) : list string :=
  ["sudo"; "mkdir"; "-p"; mountPoint].

Definition mount_argv (blockDevice mountPoint : string) : list string :=
  ["sudo"; "mount"; blockDevice; mountPoint].

Definition mount_table_argv : list string := ["mount"].

(** [fmt.Sprintf("%s on %s", blockDevice, mountPoint)] *)
Definition mount_entry (blockDevice mountPoint : string) : string :=
  (blockDevice ++ " on " ++ mountPoint)%string.

Definition cannot_mount : string :=
  "cannot mount or verify mount. cowardly refusing to continue".

Definition ensureVolumeMounted (blockDevice mountPoint : string) : M error :=
  e <- Run (mkdir_argv mountPoint) ;;
  match e with
  | Some e => ret (Wrap (Some (External e)) "mountpoint creation failed")
  | None =>
      e <- Run (mount_argv blockDevice mountPoint) ;;
      match e with
      | None => ret nil
      | Some _ =>
          r <- Output mount_table_argv ;;
          let '(out, err) := r in
          match err with
          | Some _ => ret (Wrap (lift_ext err) cannot_mount)
          | None =>
              if Contains out (mount_entry blockDevice mountPoint) then ret nil
              else ret (Wrap (lift_ext err) cannot_mount)
          end
      end
  end.

End Program.

Arguments ret {env A} a.
Arguments bind {env A B} m k.

(** ** What a trace shows *)

Definition is_attach (ev : event) : bool :=
  match ev with EvAttachVolume _ _ => true | _ => false end.

(** An attach request the provider accepted. *)
Definition is_accepted_attach (ev : event) : bool :=
  match ev with EvAttachVolume _ None => true | _ => false end.

Definition is_describe (ev : event) : bool :=
  match ev with EvDescribeVolumes _ _ => true | _ => false end.

Definition is_sleep (ev : event) : bool :=
  match ev with EvSleep _ => true | _ => false end.

(** A run of exactly this command line. *)
Definition is_exec (argv : list string) (ev : event) : bool :=
  match ev with
  | EvExec a _ _ => if list_eq_dec string_dec a argv then true else false
  | _ => false
  end.

Definition count (p : event -> bool) (tr : trace) : nat := length (filter p tr).

(** The number of times a run formats the device, and the number of times
    it tries to mount it. *)
Definition format_runs (blockDevice fileSystemFormatType : string) (tr : trace) : nat :=
  count (is_exec (mkfs_argv blockDevice fileSystemFormatType)) tr.

Definition mount_runs (blockDevice mountPoint : string) (tr : trace) : nat :=
  count (is_exec (mount_argv blockDevice mountPoint)) tr.

(** The durations slept, in order, and their total. *)
Definition sleeps (tr : trace) : list Duration :=
  flat_map (fun ev => match ev with EvSleep d => [d] | _ => [] end) tr.

Definition total (ds : list Duration) : Duration := fold_right Z.add 0 ds.

(** Once the provider has accepted an attach request, the rest of the run
    makes no attach request. *)
Fixpoint accepted_attach_is_last (tr : trace) : bool :=
  match tr with
  | [] => true
  | ev :: rest =>
      if is_accepted_attach ev then forallb (fun e => negb (is_attach e)) rest
      else accepted_attach_is_last rest
  end.

(** The error an attempt records: the error of the call that ended it, or
    the one every attempt starts with. *)
Definition recorded_error (ev : event) : err :=
  match ev with
  | EvAttachVolume _ (Some e) => External e
  | EvDescribeVolumes _ (inr e) => External e
  | EvStat _ (Some e) => External e
  | _ => New "Max attempts exceeded"
  end.

(** The delay before attempt [k + 1]: 5 s doubled [k] times, at most 100 s. *)
Definition backoff_interval (k : nat) : Duration :=
  Z.min (100 * Second) (5 * Second * 2 ^ Z.of_nat k).

(** The settings the program gives its backoff. *)
Definition configured (b : Backoff) : Prop :=
  Factor b = 2 /\ Min b = 5 * Second /\ Max b = 100 * Second.

(** The calls of one attempt: at least one, and no sleep among them. *)
Definition attempt_calls (seg : trace) : Prop :=
  seg <> [] /\ forallb (fun e => negb (is_sleep e)) seg = true.

(** The trace of consecutive attempts, the first of them attempt number [k]:
    every attempt but attempt 0 starts with its backoff sleep. *)
Fixpoint join_attempts (k : nat) (segs : list trace) : trace :=
  match segs with
  | [] => []
  | seg :: rest =>
      (if Nat.eqb k 0 then [] else [EvSleep (backoff_interval (k - 1))])
        ++ seg ++ join_attempts (S k) rest
  end.

(** The confirmation poll succeeds in world [w]: the provider reports the
    first attachment of the first volume as attached and the device node
    exists. *)
Definition confirms (env : Env) (blockDevice : string) (volume : Volume)
           (w : World env) : bool :=
  match svc_DescribeVolumes env {| Filters := []; VolumeIds := [VolumeId volume] |} w with
  | (inr _, _) => false
  | (inl out, w') =>
      match Volumes out with
      | [] => false
      | v0 :: _ =>
          match Attachments v0 with
          | [] => false
          | a0 :: _ =>
              String.eqb (State a0) VolumeAttachmentStateAttached &&
              match fst (os_Stat env blockDevice w') with
              | None => true
              | Some _ => false
              end
          end
      end
  end.

(** Projections of the result of a computation. *)
Definition result_of {A W : Type} (r : A * W * trace) : A := fst (fst r).
Definition world_of {A W : Type} (r : A * W * trace) : W := snd (fst r).
Definition trace_of {A W : Type} (r : A * W * trace) : trace := snd r.

(** ** Scripted collaborators

    A world that only counts the calls made so far; what a call answers is
    read off a script at that count.  Sleeping makes no call. *)
Record script : Type := {
  on_describe : nat -> DescribeVolumesOutput + ext_error;
  on_attach : nat -> option ext_error;
  on_stat : nat -> option ext_error;
  on_exec : list string -> nat -> string * option ext_error
}.

Definition scripted (s : script) : Env :=
  {| World := nat;
     svc_DescribeVolumes := fun _ n => (on_describe s n, S n);
     svc_AttachVolume := fun _ n => (on_attach s n, S n);
     os_Stat := fun _ n => (on_stat s n, S n);
     exec_Command := fun argv n => (on_exec s argv n, S n);
     time_Sleep := fun _ n => n |}.

Definition throttled : ext_error := AwsError "RequestLimitExceeded" "Request limit exceeded.".
Definition exit_status (n : string) : ext_error := SysError ("exit status " ++ n)%string.

Definition attachment (instance state : string) : VolumeAttachment :=
  {| Device := "/dev/xvdf"; InstanceId := instance; State := state |}.

Definition vol (attachments : list VolumeAttachment) : Volume :=
  {| VolumeId := "vol-1"; Attachments := attachments |}.

(** The provider accepts the attach request and then keeps reporting the
    volume as attaching; every command succeeds silently. *)
Definition still_attaching : script :=
  {| on_describe := fun _ => inl {| Volumes := [vol [attachment "i-1" "attaching"]] |};
     on_attach := fun _ => None;
     on_stat := fun _ => None;
     on_exec := fun _ _ => ("", None) |}.

(** The provider rejects the first call and accepts the later ones; the
    volume is reported attached and the device node exists. *)
Definition first_call_throttled : script :=
  {| on_describe := fun _ => inl {| Volumes := [vol [attachment "i-1" "attached"]] |};
     on_attach := fun n => if Nat.eqb n 0 then Some throttled else None;
     on_stat := fun _ => None;
     on_exec := fun _ _ => ("", None) |}.

(** The provider accepts the attach request at once but reports the volume
    attached only from its fiftieth call on. *)
Definition late_attach : script :=
  {| on_describe := fun n =>
       inl {| Volumes := [vol [attachment "i-1"
                                 (if Nat.ltb n 50 then "attaching" else "attached")]] |};
     on_attach := fun _ => None;
     on_stat := fun _ => None;
     on_exec := fun _ _ => ("", None) |}.

(** Every describe call fails. *)
Definition describe_down : script :=
  {| on_describe := fun _ => inr throttled;
     on_attach := fun _ => None;
     on_stat := fun _ => None;
     on_exec := fun _ _ => ("", None) |}.

(** The describe call answers with the given volumes. *)
Definition inventory (vs : list Volume) : script :=
  {| on_describe := fun _ => inl {| Volumes := vs |};
     on_attach := fun _ => None;
     on_stat := fun _ => None;
     on_exec := fun _ _ => ("", None) |}.

(** A machine on which [mkdir] succeeds, mounting the device fails, and the
    mount table is the given text. *)
Definition mount_refused (table : string) : script :=
  {| on_describe := fun _ => inr throttled;
     on_attach := fun _ => None;
     on_stat := fun _ => None;
     on_exec := fun argv _ =>
       match argv with
       | ["mount"] => (table, None)
       | ["sudo"; "mount"; _; _] => ("", Some (exit_status "32"))
       | _ => ("", None)
       end |}.

(** A machine whose device is blank ([blkid] exits with 2) or formatted,
    and on which [mkfs] fails or not. *)
Definition disk (formatted mkfs_ok : bool) : script :=
  {| on_describe := fun _ => inr throttled;
     on_attach := fun _ => None;
     on_stat := fun _ => None;
     on_exec := fun argv _ =>
       match argv with
       | ["sudo"; "/usr/sbin/blkid"; _] =>
           if formatted then ("", None) else ("", Some (exit_status "2"))
       | _ => if mkfs_ok then ("", None) else ("", Some (exit_status "1"))
       end |}.

Definition proc_mounts_other : string :=
  "/dev/xvda1 on / type ext4 (rw,relatime)".

Definition proc_mounts_data : string :=
  "/dev/xvda1 on / type ext4 (rw,relatime)
/dev/xvdf on /data type ext4 (rw,relatime)".

(** ** More of what a trace shows *)

Definition is_stat (ev : event) : bool :=
  match ev with EvStat _ _ => true | _ => false end.

Definition is_command (ev : event) : bool :=
  match ev with EvExec _ _ _ => true | _ => false end.

(** An [os.Stat] that found the file. *)
Definition is_found (ev : event) : bool :=
  match ev with EvStat _ None => true | _ => false end.

(** The query of the confirmation poll, lines 95-97. *)
Definition poll_input (volume : Volume) : DescribeVolumesInput :=
  {| Filters := []; VolumeIds := [VolumeId volume] |}.

(** The answer of a describe call names a first volume whose first
    attachment is in state "attached". *)
Definition reports_attached (out : DescribeVolumesOutput) : bool :=
  match Volumes out with
  | [] => false
  | v0 :: _ =>
      match Attachments v0 with
      | [] => false
      | a0 :: _ => String.eqb (State a0) VolumeAttachmentStateAttached
      end
  end.

(** A call of [attachVolume] is about the device, the instance and the
    volume it was given. *)
Definition targets (blockDevice : string) (input : AttachVolumeInput)
           (volume : Volume) (ev : event) : Prop :=
  match ev with
  | EvAttachVolume i _ => i = input
  | EvDescribeVolumes i _ => i = poll_input volume
  | EvStat path _ => path = blockDevice
  | EvSleep _ => True
  | EvExec _ _ _ => False
  end.

(** Every poll and every [os.Stat] of the trace comes after an accepted
    attach request; [accepted] tells whether one came before the trace. *)
Fixpoint polls_follow_accept (accepted : bool) (tr : trace) : bool :=
  match tr with
  | [] => true
  | ev :: rest =>
      (if is_describe ev || is_stat ev then accepted else true)
      && polls_follow_accept (accepted || is_accepted_attach ev) rest
  end.

(** ** main

    [main] adds two collaborators: the creation of the SDK session and the
    instance metadata service.  The EC2 client and the metadata client are
    the ones configured with the flag [awsRegion]. *)
Record Host : Type := {
  host_env : Env;
  (** [session.NewSession()], of which [session.Must] reads the error. *)
  session_NewSession : World host_env -> option ext_error * World host_env;
  (** [metadataSVC.GetMetadata]. *)
  metadata_GetMetadata :
    string -> World host_env -> (string + ext_error) * World host_env
}.

(** The package-level variables set by the flags, lines 197-205. *)
Record Flags : Type := {
  useEBS : bool;
  ebsVolumeID : string;
  mountPoint : string;
  blockDevice : string;
  awsRegion : string;
  fileSystemFormatType : string;
  maxAttempts : Z
}.

Definition MaxInt64 : Z := 2 ^ 63 - 1.

(** The defaults of the flags, lines 208-214. *)
Definition default_flags : Flags :=
  {| useEBS := true;
     ebsVolumeID := "";
     mountPoint := "/data";
     blockDevice := "/dev/xvdf";
     awsRegion := "eu-west-1";
     fileSystemFormatType := "ext4";
     maxAttempts := MaxInt64 |}.

(** The defaults with [-use-ebs=false], and with [-max-attempts=0]. *)
Definition flags_without_ebs : Flags :=
  {| useEBS := false;
     ebsVolumeID := "";
     mountPoint := "/data";
     blockDevice := "/dev/xvdf";
     awsRegion := "eu-west-1";
     fileSystemFormatType := "ext4";
     maxAttempts := MaxInt64 |}.

Definition flags_zero_attempts : Flags :=
  {| useEBS := true;
     ebsVolumeID := "vol-1";
     mountPoint := "/data";
     blockDevice := "/dev/xvdf";
     awsRegion := "eu-west-1";
     fileSystemFormatType := "ext4";
     maxAttempts := 0 |}.

Definition flags_three_attempts : Flags :=
  {| useEBS := true;
     ebsVolumeID := "vol-1";
     mountPoint := "/data";
     blockDevice := "/dev/xvdf";
     awsRegion := "eu-west-1";
     fileSystemFormatType := "ext4";
     maxAttempts := 3 |}.

(** What [main] adds to the calls of the functions it runs. *)
Inductive main_event : Type :=
| EvNewSession (res : option ext_error)
| EvGetMetadata (path : string) (res : string + ext_error)
| EvCall (ev : event).

(** What a panic carries: the error given to [panic], or the run-time error
    of reading through a nil volume pointer.  The fields of the SDK records
    are stored as their pointees, so a panic on a missing field is not
    modelled. *)
Inductive panic_value : Type :=
| PanicError (e : err)
| PanicNilPointer.

Section Main.

Variable host : Host.

(** A computation of [main]: its value, or the panic that ended it. *)
Definition P (A : Type) : Type :=
  World (host_env host) -> (A + panic_value) * World (host_env host) * list main_event.

Definition pret {A} (a : A) : P A := fun w => (inl a, w, []).

Definition panic {A} (v : panic_value) : P A := fun w => (inr v, w, []).

Definition pbind {A B} (m : P A) (k : A -> P B) : P B :=
  fun w =>
    let '(a, w1, t1) := m w in
    match a with
    | inr v => (inr v, w1, t1)
    | inl a =>
        let '(b, w2, t2) := k a w1 in
        (b, w2, t1 ++ t2)
    end.

Notation "x <-- m ;; k" := (pbind m (fun x => k))
  (at level 61, m at next level, right associativity).

(** Running one of the functions above inside [main]. *)
Definition call {A} (m : M (host_env host) A) : P A :=
  fun w => let '(a, w', t) := m w in (inl a, w', map EvCall t).

(** [if err != nil { panic(err) }] *)
Definition must (e : error) : P unit :=
  match e with
  | None => pret tt
  | Some e => panic (PanicError e)
  end.

(** [session.Must(session.NewSession())] *)
Definition NewSession : P unit :=
  fun w => let '(r, w') := session_NewSession host w in
           match r with
           | None => (inl tt, w', [EvNewSession r])
           | Some e => (inr (PanicError (External e)), w', [EvNewSession r])
           end.

(** [metadataSVC.GetMetadata(path)] followed by the panic on its error. *)
Definition GetMetadata (path : string) : P string :=
  fun w => let '(r, w') := metadata_GetMetadata host path w in
           match r with
           | inl value => (inl value, w', [EvGetMetadata path r])
           | inr e => (inr (PanicError (External e)), w', [EvGetMetadata path r])
           end.

(** Lines 232-247. *)
Definition attach_stage (f : Flags) (availabilityZone : string) : P unit :=
  if useEBS f then
    r <-- call (volumeFromID (host_env host) (ebsVolumeID f) availabilityZone) ;;
    _ <-- must (snd r) ;;
    instanceID <-- GetMetadata "instance-id" ;;
    match fst r with
    | None => panic PanicNilPointer
    | Some volume =>
        e <-- call (attachVolume (host_env host) (blockDevice f) instanceID volume
                                 (maxAttempts f)) ;;
        must e
    end
  else pret tt.

(** Lines 249-255. *)
Definition init_and_mount (f : Flags) : P unit :=
  e <-- call (ensureVolumeInited (host_env host) (blockDevice f) (fileSystemFormatType f)) ;;
  _ <-- must e ;;
  e <-- call (ensureVolumeMounted (host_env host) (blockDevice f) (mountPoint f)) ;;
  must e.

Definition main (f : Flags) : P unit :=
  _ <-- NewSession ;;
  availabilityZone <-- GetMetadata "placement/availability-zone" ;;
  _ <-- attach_stage f availabilityZone ;;
  init_and_mount f.

End Main.

(** The calls [main] makes itself and the ones of the functions it runs. *)
Definition is_ec2_call (ev : main_event) : bool :=
  match ev with
  | EvCall (EvDescribeVolumes _ _) | EvCall (EvAttachVolume _ _) => true
  | _ => false
  end.

Definition is_command_run (ev : main_event) : bool :=
  match ev with EvCall (EvExec _ _ _) => true | _ => false end.

Definition is_metadata (ev : main_event) : bool :=
  match ev with EvGetMetadata _ _ => true | _ => false end.

Definition is_attach_call (ev : main_event) : bool :=
  match ev with EvCall (EvAttachVolume _ _) => true | _ => false end.

Definition mcount (p : main_event -> bool) (tr : list main_event) : nat :=
  length (filter p tr).

(** Projections of the result of a computation of [main]. *)
Definition main_result {A W : Type} (r : A * W * list main_event) : A := fst (fst r).
Definition main_world {A W : Type} (r : A * W * list main_event) : W := snd (fst r).
Definition main_trace {A W : Type} (r : A * W * list main_event) : list main_event := snd r.

(** A host on a scripted machine: the session is created, and the metadata
    service answers with the given availability zone and instance. *)
Definition scripted_host (s : script) (az instance : string) : Host :=
  {| host_env := scripted s;
     session_NewSession := fun n => (None, S n);
     metadata_GetMetadata := fun path n =>
       (inl (if String.eqb path "instance-id" then instance else az), S n) |}.

(** A host whose metadata service is unreachable. *)
Definition no_metadata_host (s : script) : Host :=
  {| host_env := scripted s;
     session_NewSession := fun n => (None, S n);
     metadata_GetMetadata := fun _ n => (inr (SysError "connection refused"), S n) |}.

(** * Properties *)

Ltac unfold_calls :=
  unfold Run, Output, DescribeVolumes, AttachVolume, Stat, Sleep, bind, ret,
    result_of, world_of, trace_of in *.

(** ** The volume locator *)

Lemma volumeFromID_calls_once env volumeID az w :
  exists r, trace_of (volumeFromID env volumeID az w)
            = [EvDescribeVolumes (locate_input volumeID az) r].
Proof.
  unfold volumeFromID; unfold_calls.
  destruct (svc_DescribeVolumes env (locate_input volumeID az) w) as [[out | e] w'].
  - exists (inl out). destruct (Volumes out); reflexivity.
  - exists (inr e). reflexivity.
Qed.

(** C6: when the describe call filtered by volume-id and availability-zone
    succeeds with an empty list of volumes, [volumeFromID] returns no volume
    and the error "cannot find volume with volume-id: <id>", which it
    creates itself and which therefore is no error of the provider; when the
    list is not empty it returns its first volume and a nil error. *)
Theorem volumeFromID_not_found_or_first env volumeID az w out w' :
  svc_DescribeVolumes env (locate_input volumeID az) w = (inl out, w') ->
  let r := result_of (volumeFromID env volumeID az w) in
  (Volumes out = [] ->
     r = (None, Some (New ("cannot find volume with volume-id: " ++ volumeID)%string))
     /\ forall e : ext_error, snd r <> Some (External e))
  /\ (forall v rest, Volumes out = v :: rest -> r = (Some v, nil)).
Proof.
  intros Hcall r; subst r.
  unfold volumeFromID; unfold_calls.
  rewrite Hcall. split.
  - intros ->. simpl. split; [reflexivity | discriminate].
  - intros v rest ->. reflexivity.
Qed.

Lemma volumeFromID_not_found_or_first_witness :
  let r := result_of (volumeFromID (scripted (inventory [])) "vol-1" "eu-west-1a" 0%nat) in
  (@List.nil Volume = [] ->
     r = (None, Some (New "cannot find volume with volume-id: vol-1"))
     /\ forall e : ext_error, snd r <> Some (External e))
  /\ (forall v rest, @List.nil Volume = v :: rest -> r = (Some v, nil)).
Proof.
  apply (volumeFromID_not_found_or_first (scripted (inventory [])) "vol-1" "eu-west-1a"
           0%nat {| Volumes := [] |} 1%nat).
  reflexivity.
Defined.

(** ** The short-circuit of [attachVolume] *)

(** C3: when the first attachment of the volume names the requesting
    instance, [attachVolume] returns nil at once: the world is untouched and
    the run makes no call at all, so no attach request and no confirmation
    poll. *)
Theorem attachVolume_already_attached env blockDevice instanceID volume maxAttempts w a0 rest :
  Attachments volume = a0 :: rest ->
  InstanceId a0 = instanceID ->
  attachVolume env blockDevice instanceID volume maxAttempts w = (nil, w, [])
  /\ count is_attach (trace_of (attachVolume env blockDevice instanceID volume maxAttempts w)) = 0%nat
  /\ count is_describe (trace_of (attachVolume env blockDevice instanceID volume maxAttempts w)) = 0%nat.
Proof.
  intros Hatt Hid.
  assert (E : attachVolume env blockDevice instanceID volume maxAttempts w = (nil, w, [])).
  { unfold attachVolume, already_attached. rewrite Hatt, Hid, String.eqb_refl. reflexivity. }
  rewrite E. repeat split.
Qed.

Lemma attachVolume_already_attached_witness :
  attachVolume (scripted still_attaching) "/dev/xvdf" "i-1"
               (vol [attachment "i-1" "attached"]) 3 0%nat = (nil, 0%nat, []).
Proof.
  apply (attachVolume_already_attached (scripted still_attaching) "/dev/xvdf" "i-1"
           (vol [attachment "i-1" "attached"]) 3 0%nat
           (attachment "i-1" "attached") []); reflexivity.
Defined.

(** C9: with [maxAttempts <= 0] and a volume that is not already attached
    to the requesting instance, the loop body never runs, [lastError] is
    still nil when it is wrapped, and [attachVolume] returns nil having made
    no attach request, no poll and no sleep. *)
Theorem attachVolume_no_budget env blockDevice instanceID volume maxAttempts w :
  maxAttempts <= 0 ->
  already_attached volume instanceID = false ->
  attachVolume env blockDevice instanceID volume maxAttempts w = (nil, w, []).
Proof.
  intros Hn Hna. unfold attachVolume, attach_retry. rewrite Hna.
  replace (Z.to_nat maxAttempts) with 0%nat by lia.
  reflexivity.
Qed.

Lemma attachVolume_no_budget_witness :
  attachVolume (scripted still_attaching) "/dev/xvdf" "i-1" (vol []) (-1) 0%nat
  = (nil, 0%nat, []).
Proof.
  apply (attachVolume_no_budget (scripted still_attaching) "/dev/xvdf" "i-1" (vol []) (-1) 0%nat).
  - lia.
  - reflexivity.
Defined.

(** ** The filesystem initialiser *)

Lemma blkid_is_not_mkfs blockDevice fileSystemFormatType :
  is_exec (mkfs_argv blockDevice fileSystemFormatType)
          (EvExec (blkid_argv blockDevice) "" None) = false.
Proof.
  unfold is_exec, mkfs_argv, blkid_argv.
  destruct (list_eq_dec string_dec _ _) as [E | _]; [| reflexivity].
  simpl in E. discriminate E.
Qed.

Lemma is_exec_same argv out r : is_exec argv (EvExec argv out r) = true.
Proof.
  unfold is_exec. destruct (list_eq_dec string_dec argv argv); congruence.
Qed.

Lemma is_exec_out argv a out r out' r' :
  is_exec argv (EvExec a out r) = is_exec argv (EvExec a out' r').
Proof. reflexivity. Qed.

(** C7: [ensureVolumeInited] formats only a device the probe rejects.  When
    [blkid] succeeds the function returns nil and its only call is the
    probe, so the format tool runs zero times; this holds in particular for
    a second invocation made in the world the first one left, when the
    device carries a signature there.  When the probe fails the format tool
    runs exactly once, and its failure is returned wrapped in
    "mkfs.<fsType> failed". *)
Theorem ensureVolumeInited_idempotent env blockDevice fsType w :
  let probe := exec_Command env (blkid_argv blockDevice) w in
  let run := ensureVolumeInited env blockDevice fsType w in
  let again := ensureVolumeInited env blockDevice fsType (world_of run) in
  (snd (fst probe) = None ->
     result_of run = nil
     /\ trace_of run = [EvExec (blkid_argv blockDevice) (fst (fst probe)) None]
     /\ format_runs blockDevice fsType (trace_of run) = 0%nat)
  /\ (forall e, snd (fst probe) = Some e ->
        let format := exec_Command env (mkfs_argv blockDevice fsType) (snd probe) in
        trace_of run = [EvExec (blkid_argv blockDevice) (fst (fst probe)) (Some e);
                        EvExec (mkfs_argv blockDevice fsType) (fst (fst format)) (snd (fst format))]
        /\ format_runs blockDevice fsType (trace_of run) = 1%nat
        /\ result_of run
           = Wrap (lift_ext (snd (fst format))) ("mkfs." ++ fsType ++ " failed")%string)
  /\ (snd (fst (exec_Command env (blkid_argv blockDevice) (world_of run))) = None ->
        result_of again = nil
        /\ format_runs blockDevice fsType (trace_of again) = 0%nat).
Proof.
  assert (Hok : forall w0, snd (fst (exec_Command env (blkid_argv blockDevice) w0)) = None ->
      result_of (ensureVolumeInited env blockDevice fsType w0) = nil
      /\ trace_of (ensureVolumeInited env blockDevice fsType w0)
         = [EvExec (blkid_argv blockDevice)
                   (fst (fst (exec_Command env (blkid_argv blockDevice) w0))) None]
      /\ format_runs blockDevice fsType (trace_of (ensureVolumeInited env blockDevice fsType w0)) = 0%nat).
  { intros w0 H. unfold ensureVolumeInited, format_runs, count; unfold_calls.
    destruct (exec_Command env (blkid_argv blockDevice) w0) as [[out r] w1].
    simpl in H; subst r. cbn [fst snd app filter].
    repeat split. }
  intros probe run again. split; [| split].
  - intros H. apply (Hok w H).
  - intros e H format. subst probe run format.
    unfold ensureVolumeInited, format_runs, count; unfold_calls.
    destruct (exec_Command env (blkid_argv blockDevice) w) as [[out r] w1].
    simpl in H; subst r. cbn [fst snd].
    destruct (exec_Command env (mkfs_argv blockDevice fsType) w1) as [[out2 r2] w2].
    cbn [fst snd].
    assert (Hc : length (filter (is_exec (mkfs_argv blockDevice fsType))
                   [EvExec (blkid_argv blockDevice) out (Some e);
                    EvExec (mkfs_argv blockDevice fsType) out2 r2]) = 1%nat).
    { cbn [filter].
      rewrite (is_exec_out _ _ out (Some e) "" None), blkid_is_not_mkfs, is_exec_same.
      reflexivity. }
    destruct r2 as [e2 |]; cbn [fst snd app]; repeat split; exact Hc.
  - intros H. destruct (Hok (world_of run) H) as (R & _ & F). split; assumption.
Qed.

Lemma ensureVolumeInited_idempotent_witness :
  let run := ensureVolumeInited (scripted (disk true false)) "/dev/xvdf" "ext4" 0%nat in
  result_of run = nil
  /\ trace_of run = [EvExec (blkid_argv "/dev/xvdf") "" None]
  /\ format_runs "/dev/xvdf" "ext4" (trace_of run) = 0%nat.
Proof.
  apply (ensureVolumeInited_idempotent (scripted (disk true false)) "/dev/xvdf" "ext4" 0%nat).
  reflexivity.
Defined.

(** ** The mount reconciler *)

(** What [ensureVolumeMounted] does once [mkdir] has succeeded, the mount
    command has failed and the mount table has been read without error:
    the calls it made, and a result that depends on the table only through
    the test of line 178 -- and is nil on both sides of it, since line 183
    wraps the nil error of the table read. *)
Lemma ensureVolumeMounted_after_failed_mount env blockDevice mountPoint w w1 w2 w3 o1 o2 e out :
  exec_Command env (mkdir_argv mountPoint) w = ((o1, None), w1) ->
  exec_Command env (mount_argv blockDevice mountPoint) w1 = ((o2, Some e), w2) ->
  exec_Command env mount_table_argv w2 = ((out, None), w3) ->
  ensureVolumeMounted env blockDevice mountPoint w
  = (if Contains out (mount_entry blockDevice mountPoint) then nil
     else Wrap nil cannot_mount,
     w3,
     [EvExec (mkdir_argv mountPoint) o1 None;
      EvExec (mount_argv blockDevice mountPoint) o2 (Some e);
      EvExec mount_table_argv out None]).
Proof.
  intros H1 H2 H3. unfold ensureVolumeMounted; unfold_calls.
  rewrite H1; cbn [fst snd]. rewrite H2; cbn [fst snd]. rewrite H3; cbn [fst snd].
  destruct (Contains out (mount_entry blockDevice mountPoint)); reflexivity.
Qed.

(** C8: when the mount command fails, the mount table is read without error
    and contains "<device> on <mountPoint>", [ensureVolumeMounted] returns
    nil, and the mount command has run exactly once: the run is [mkdir], the
    failed mount and the read of the table. *)
Theorem ensureVolumeMounted_already_mounted env blockDevice mountPoint w w1 w2 w3 o1 o2 e out :
  exec_Command env (mkdir_argv mountPoint) w = ((o1, None), w1) ->
  exec_Command env (mount_argv blockDevice mountPoint) w1 = ((o2, Some e), w2) ->
  exec_Command env mount_table_argv w2 = ((out, None), w3) ->
  Contains out (mount_entry blockDevice mountPoint) = true ->
  let run := ensureVolumeMounted env blockDevice mountPoint w in
  result_of run = nil
  /\ trace_of run = [EvExec (mkdir_argv mountPoint) o1 None;
                     EvExec (mount_argv blockDevice mountPoint) o2 (Some e);
                     EvExec mount_table_argv out None]
  /\ mount_runs blockDevice mountPoint (trace_of run) = 1%nat.
Proof.
  intros H1 H2 H3 Hin run. subst run.
  rewrite (ensureVolumeMounted_after_failed_mount _ _ _ _ _ _ _ _ _ _ _ H1 H2 H3), Hin.
  unfold result_of, trace_of, mount_runs, count. cbn [fst snd filter].
  rewrite is_exec_same.
  replace (is_exec (mount_argv blockDevice mountPoint) (EvExec (mkdir_argv mountPoint) o1 None))
    with false.
  2:{ unfold is_exec, mount_argv, mkdir_argv.
      destruct (list_eq_dec string_dec _ _) as [E | _]; [discriminate E | reflexivity]. }
  replace (is_exec (mount_argv blockDevice mountPoint) (EvExec mount_table_argv out None))
    with false.
  2:{ unfold is_exec, mount_argv, mount_table_argv.
      destruct (list_eq_dec string_dec _ _) as [E | _]; [discriminate E | reflexivity]. }
  repeat split.
Qed.

Lemma ensureVolumeMounted_already_mounted_witness :
  let run := ensureVolumeMounted (scripted (mount_refused proc_mounts_data))
                                 "/dev/xvdf" "/data" 0%nat in
  result_of run = nil
  /\ trace_of run = [EvExec (mkdir_argv "/data") "" None;
                     EvExec (mount_argv "/dev/xvdf" "/data") "" (Some (exit_status "32"));
                     EvExec mount_table_argv proc_mounts_data None]
  /\ mount_runs "/dev/xvdf" "/data" (trace_of run) = 1%nat.
Proof.
  apply (ensureVolumeMounted_already_mounted (scripted (mount_refused proc_mounts_data))
           "/dev/xvdf" "/data" 0%nat 1%nat 2%nat 3%nat "" "" (exit_status "32")
           proc_mounts_data); reflexivity.
Defined.

(** C1 (the code departs from it): the mount command fails with exit status
    32, the mount table is read without error and has no entry
    "/dev/xvdf on /data" -- and [ensureVolumeMounted] returns nil, not the
    "cannot mount or verify" error: the error wrapped on line 183 is the nil
    error of the table read, and wrapping nil gives nil. *)
Theorem ensureVolumeMounted_unverified_mount_returns_nil :
  let run := ensureVolumeMounted (scripted (mount_refused proc_mounts_other))
                                 "/dev/xvdf" "/data" 0%nat in
  Contains proc_mounts_other (mount_entry "/dev/xvdf" "/data") = false
  /\ trace_of run = [EvExec (mkdir_argv "/data") "" None;
                     EvExec (mount_argv "/dev/xvdf" "/data") "" (Some (exit_status "32"));
                     EvExec mount_table_argv proc_mounts_other None]
  /\ result_of run = nil.
Proof.
  cbv zeta.
  rewrite (ensureVolumeMounted_after_failed_mount (scripted (mount_refused proc_mounts_other))
             "/dev/xvdf" "/data" 0%nat 1%nat 2%nat 3%nat "" "" (exit_status "32")
             proc_mounts_other eq_refl eq_refl eq_refl).
  repeat split.
Qed.

(** ** The retry loop of [attachVolume] *)

Arguments ForAttempt : simpl never.
Arguments backoff_interval : simpl never.
Arguments Backoff_Duration : simpl never.

(** One attempt, case by case: whether it sleeps, whether it still has to
    issue the attach request, and what each call answers. *)
Ltac reduce_vars :=
  cbn [negb fst snd app set_lastError set_backoff set_attachStarted set_attachSucceeded
       attachStarted attachSucceeded lastError backoff] in *.

Ltac attempt_cases attempts v :=
  cbv zeta;
  unfold attempt_body, wait_step, issue_step, confirm_step, Backoff_Duration;
  unfold_calls;
  destruct v as [started succeeded lasterr b]; reduce_vars;
  destruct (Nat.eqb attempts 0) eqn:?; destruct started; reduce_vars;
  repeat (match goal with
    | |- context [svc_AttachVolume ?E ?I ?W] =>
        destruct (svc_AttachVolume E I W) as [[?e|] ?w] eqn:?
    | |- context [svc_DescribeVolumes ?E ?I ?W] =>
        destruct (svc_DescribeVolumes E I W) as [[?out|?e] ?w] eqn:?
    | |- context [match Volumes ?O with _ => _ end] =>
        destruct (Volumes O) as [|?v0 ?vs] eqn:?
    | |- context [match Attachments ?X with _ => _ end] =>
        destruct (Attachments X) as [|?a0 ?atts] eqn:?
    | |- context [String.eqb (State ?A) ?S] =>
        destruct (String.eqb (State A) S) eqn:?
    | |- context [os_Stat ?E ?P ?W] =>
        destruct (os_Stat E P W) as [[?e|] ?w] eqn:?
    end; reduce_vars).

Lemma attempt_body_shape env blockDevice input volume attempts v w :
  let r := attempt_body env blockDevice input volume attempts v w in
  exists seg,
    trace_of r
    = (if Nat.eqb attempts 0 then []
       else [EvSleep (ForAttempt (backoff v) (attempt (backoff v)))]) ++ seg
    /\ attempt_calls seg
    /\ backoff (snd (result_of r))
       = (if Nat.eqb attempts 0 then backoff v else snd (Backoff_Duration (backoff v))).
Proof.
  attempt_cases attempts v.
  all: eexists; split; [reflexivity |]; split; [split; [discriminate | reflexivity] | reflexivity].
Qed.

(** How an attempt ends: [break] sets [attachSucceeded]; otherwise the flag
    is untouched and [lastError] is the error the last call of the attempt
    recorded. *)
Lemma attempt_body_outcome env blockDevice input volume attempts v w :
  let r := attempt_body env blockDevice input volume attempts v w in
  match fst (result_of r) with
  | Break => attachSucceeded (snd (result_of r)) = true
  | Continue =>
      attachSucceeded (snd (result_of r)) = attachSucceeded v
      /\ lastError (snd (result_of r))
         = Some (recorded_error (List.last (trace_of r) (EvSleep 0)))
  end.
Proof.
  attempt_cases attempts v.
  all: try (split; reflexivity); reflexivity.
Qed.

(** The attach request within an attempt: none once the issuance flag is
    set; before that, an accepted request sets the flag and is the last
    attach request of the attempt. *)
Lemma attempt_body_attach env blockDevice input volume attempts v w :
  let r := attempt_body env blockDevice input volume attempts v w in
  if attachStarted v then
    forallb (fun e => negb (is_attach e)) (trace_of r) = true
    /\ attachStarted (snd (result_of r)) = true
  else
    accepted_attach_is_last (trace_of r) = true
    /\ (attachStarted (snd (result_of r)) = false ->
        forallb (fun e => negb (is_accepted_attach e)) (trace_of r) = true).
Proof.
  attempt_cases attempts v.
  all: split; try reflexivity; try discriminate.
Qed.

(** An attempt whose confirmation poll cannot succeed goes on to the next
    one. *)
Lemma attempt_body_continues env blockDevice input volume attempts v w :
  (forall w0, confirms env blockDevice volume w0 = false) ->
  fst (result_of (attempt_body env blockDevice input volume attempts v w)) = Continue.
Proof.
  intros Hnever.
  attempt_cases attempts v.
  all: try reflexivity.
  all: match goal with
       | H : svc_DescribeVolumes _ _ ?W = _ |- _ =>
           specialize (Hnever W); unfold confirms in Hnever; rewrite H in Hnever
       end.
  all: repeat match goal with
       | H : Volumes _ = _ |- _ => rewrite H in Hnever; clear H
       | H : Attachments _ = _ |- _ => rewrite H in Hnever; clear H
       | H : String.eqb _ _ = _ |- _ => rewrite H in Hnever; clear H
       | H : os_Stat _ _ _ = _ |- _ => rewrite H in Hnever; clear H
       end.
  all: discriminate Hnever.
Qed.

Lemma attempts_loop_step env blockDevice input volume n attempts v w :
  attempts_loop env blockDevice input volume (S n) attempts v w
  = let r := attempt_body env blockDevice input volume attempts v w in
    match fst (result_of r) with
    | Break => ((attempts, snd (result_of r)), world_of r, trace_of r)
    | Continue =>
        let r' := attempts_loop env blockDevice input volume n (S attempts)
                                (snd (result_of r)) (world_of r) in
        (result_of r', world_of r', trace_of r ++ trace_of r')
    end.
Proof.
  cbn [attempts_loop]. unfold bind at 1. cbv zeta. unfold_calls.
  destruct (attempt_body env blockDevice input volume attempts v w) as [[[f v1] w1] t1].
  cbn [fst snd]. destruct f.
  - destruct (attempts_loop env blockDevice input volume n (S attempts) v1 w1) as [[r2 w2] t2].
    reflexivity.
  - rewrite app_nil_r. reflexivity.
Qed.

(** *** Facts about traces *)

Lemma forallb_negb_count (p : event -> bool) (tr : trace) :
  forallb (fun e => negb (p e)) tr = true -> count p tr = 0%nat.
Proof.
  unfold count. induction tr as [| ev tr IH]; cbn [forallb filter]; [reflexivity |].
  intros H. apply andb_prop in H. destruct H as [Hev Htr].
  destruct (p ev); [discriminate Hev | auto].
Qed.

Lemma no_attach_no_accepted (tr : trace) :
  forallb (fun e => negb (is_attach e)) tr = true ->
  forallb (fun e => negb (is_accepted_attach e)) tr = true.
Proof.
  induction tr as [| ev tr IH]; cbn [forallb]; [reflexivity |].
  intros H. apply andb_prop in H. destruct H as [Hev Htr].
  rewrite (IH Htr), andb_true_r.
  destruct ev as [| i [e |] | | |]; try reflexivity. discriminate Hev.
Qed.

Lemma no_accepted_accepted_is_last (tr : trace) :
  forallb (fun e => negb (is_accepted_attach e)) tr = true ->
  accepted_attach_is_last tr = true.
Proof.
  induction tr as [| ev tr IH]; cbn [forallb accepted_attach_is_last]; [reflexivity |].
  intros H. apply andb_prop in H. destruct H as [Hev Htr].
  destruct (is_accepted_attach ev); [discriminate Hev | auto].
Qed.

Lemma accepted_is_last_app_after (t1 t2 : trace) :
  forallb (fun e => negb (is_accepted_attach e)) t1 = true ->
  accepted_attach_is_last (t1 ++ t2) = accepted_attach_is_last t2.
Proof.
  induction t1 as [| ev t1 IH]; cbn [forallb accepted_attach_is_last app]; [reflexivity |].
  intros H. apply andb_prop in H. destruct H as [Hev Htr].
  destruct (is_accepted_attach ev); [discriminate Hev | auto].
Qed.

Lemma accepted_is_last_app_before (t1 t2 : trace) :
  accepted_attach_is_last t1 = true ->
  forallb (fun e => negb (is_attach e)) t2 = true ->
  accepted_attach_is_last (t1 ++ t2) = true.
Proof.
  intros H1 H2. induction t1 as [| ev t1 IH]; cbn [accepted_attach_is_last app] in *.
  - apply no_accepted_accepted_is_last, no_attach_no_accepted, H2.
  - destruct (is_accepted_attach ev); [| auto].
    rewrite forallb_app, H1, H2. reflexivity.
Qed.

Lemma accepted_is_last_split (tr pre post : trace) (i : AttachVolumeInput) :
  accepted_attach_is_last tr = true ->
  tr = pre ++ EvAttachVolume i None :: post ->
  forallb (fun e => negb (is_attach e)) post = true.
Proof.
  revert tr. induction pre as [| ev pre IH]; intros tr H ->; cbn [accepted_attach_is_last app] in H.
  - exact H.
  - destruct (is_accepted_attach ev).
    + rewrite forallb_app in H. apply andb_prop in H. destruct H as [_ H].
      discriminate H.
    + apply (IH _ H eq_refl).
Qed.

Lemma accepted_is_last_count (tr : trace) :
  accepted_attach_is_last tr = true -> (count is_accepted_attach tr <= 1)%nat.
Proof.
  unfold count. induction tr as [| ev tr IH]; cbn [accepted_attach_is_last filter]; [auto |].
  destruct (is_accepted_attach ev); [| exact IH].
  intros H. apply no_attach_no_accepted, forallb_negb_count in H.
  unfold count in H. cbn [length]. rewrite H. auto.
Qed.

(** *** The attach request across the attempts *)

Lemma attempts_loop_attach env blockDevice input volume n :
  forall attempts v w,
    let r := attempts_loop env blockDevice input volume n attempts v w in
    if attachStarted v then forallb (fun e => negb (is_attach e)) (trace_of r) = true
    else accepted_attach_is_last (trace_of r) = true.
Proof.
  induction n as [| n IH]; intros attempts v w.
  - cbn. destruct (attachStarted v); reflexivity.
  - cbv zeta. rewrite attempts_loop_step. cbv zeta.
    pose proof (attempt_body_attach env blockDevice input volume attempts v w) as Hb.
    cbv zeta in Hb.
    set (r1 := attempt_body env blockDevice input volume attempts v w) in *.
    specialize (IH (S attempts) (snd (result_of r1)) (world_of r1)). cbv zeta in IH.
    set (r2 := attempts_loop env blockDevice input volume n (S attempts)
                             (snd (result_of r1)) (world_of r1)) in *.
    destruct (attachStarted v).
    + destruct Hb as [Hno Hst]. rewrite Hst in IH.
      destruct (fst (result_of r1)); unfold trace_of at 1; cbn [snd]; [| exact Hno].
      rewrite forallb_app, Hno, IH. reflexivity.
    + destruct Hb as [Hlast Hrej].
      destruct (fst (result_of r1)); unfold trace_of at 1; cbn [snd]; [| exact Hlast].
      destruct (attachStarted (snd (result_of r1))).
      * apply accepted_is_last_app_before; assumption.
      * rewrite accepted_is_last_app_after; auto.
Qed.

Lemma ForAttempt_configured (b : Backoff) (k : nat) :
  Factor b = 2 -> Min b = 5 * Second -> Max b = 100 * Second ->
  ForAttempt b k = backoff_interval k.
Proof.
  intros HF Hmin Hmax. unfold ForAttempt, backoff_interval. rewrite HF, Hmin, Hmax.
  change (5 * Second) with 5000000000. change (100 * Second) with 100000000000.
  change (5000000000 <=? 0) with false. change (100000000000 <=? 0) with false.
  change (2 <=? 0) with false. cbv iota.
  change (5000000000 >=? 100000000000) with false. cbv iota.
  change maxInt64 with 9223372036854775295.
  assert (Hp : 1 <= 2 ^ Z.of_nat k)
    by (change 1 with (2 ^ 0); apply Z.pow_le_mono_r; lia).
  revert Hp. generalize (2 ^ Z.of_nat k). intros p Hp.
  repeat match goal with
         | |- context [?a >? ?b] => destruct (Z.gtb_spec a b)
         | |- context [?a <? ?b] => destruct (Z.ltb_spec a b)
         end; lia.
Qed.

(** A later attempt made before any attach request was accepted sleeps and
    then issues the attach request. *)
Lemma attempt_body_reissues env blockDevice input volume attempts v w :
  attachStarted v = false ->
  attempts <> 0%nat ->
  exists r rest,
    trace_of (attempt_body env blockDevice input volume attempts v w)
    = EvSleep (ForAttempt (backoff v) (attempt (backoff v)))
        :: EvAttachVolume input r :: rest.
Proof.
  intros Hst Hne. apply Nat.eqb_neq in Hne. revert Hst.
  attempt_cases attempts v; intros Hst; try discriminate Hst; try congruence.
  all: eexists; eexists; reflexivity.
Qed.

Lemma attachVolume_unfold env blockDevice instanceID volume maxAttempts w :
  already_attached volume instanceID = false ->
  attachVolume env blockDevice instanceID volume maxAttempts w
  = let r := attach_retry env blockDevice instanceID volume maxAttempts w in
    (if negb (attachSucceeded (snd (result_of r)))
     then Wrap (lastError (snd (result_of r))) "Attaching volume failed"
     else nil,
     world_of r, trace_of r).
Proof.
  intros Hna. unfold attachVolume. rewrite Hna. unfold_calls.
  destruct (attach_retry env blockDevice instanceID volume maxAttempts w) as [[[n v] w'] t].
  cbn [fst snd]. destruct (attachSucceeded v); cbn [negb]; rewrite app_nil_r; reflexivity.
Qed.

Lemma attachVolume_accepted_is_last env blockDevice instanceID volume maxAttempts w :
  accepted_attach_is_last
    (trace_of (attachVolume env blockDevice instanceID volume maxAttempts w)) = true.
Proof.
  destruct (already_attached volume instanceID) eqn:Hatt.
  - unfold attachVolume. rewrite Hatt. reflexivity.
  - rewrite attachVolume_unfold by assumption. cbv zeta. unfold trace_of at 1. cbn [snd].
    apply (attempts_loop_attach env blockDevice (attach_input blockDevice instanceID volume)
             volume (Z.to_nat maxAttempts) 0%nat initial_vars w).
Qed.

(** C2: in every run of [attachVolume], whatever the number of attempts and
    the answers of the poll, no attach request follows an attach request the
    provider accepted, so at most one is accepted; and an attach request the
    provider rejected on the first attempt is issued again on the second,
    after the first backoff sleep. *)
Theorem attachVolume_attach_accepted_once env blockDevice instanceID volume maxAttempts w :
  let tr := trace_of (attachVolume env blockDevice instanceID volume maxAttempts w) in
  (forall pre i post,
      tr = pre ++ EvAttachVolume i None :: post -> count is_attach post = 0%nat)
  /\ (count is_accepted_attach tr <= 1)%nat
  /\ (forall e w1,
        already_attached volume instanceID = false ->
        2 <= maxAttempts ->
        svc_AttachVolume env (attach_input blockDevice instanceID volume) w = (Some e, w1) ->
        exists r rest,
          tr = EvAttachVolume (attach_input blockDevice instanceID volume) (Some e)
               :: EvSleep (5 * Second)
               :: EvAttachVolume (attach_input blockDevice instanceID volume) r :: rest).
Proof.
  intros tr.
  pose proof (attachVolume_accepted_is_last env blockDevice instanceID volume maxAttempts w)
    as Hlast.
  fold tr in Hlast. split; [| split].
  - intros pre i post Htr. apply forallb_negb_count.
    apply (accepted_is_last_split tr pre post i Hlast Htr).
  - apply accepted_is_last_count, Hlast.
  - intros e w1 Hna Hn Hrej. subst tr.
    rewrite attachVolume_unfold by assumption. cbv zeta. unfold trace_of at 1. cbn [snd].
    unfold attach_retry.
    destruct (Z.to_nat maxAttempts) as [| [| n]] eqn:En; try lia.
    set (input := attach_input blockDevice instanceID volume) in *.
    rewrite attempts_loop_step. cbv zeta.
    assert (B0 : attempt_body env blockDevice input volume 0 initial_vars w
                 = (Continue,
                    set_lastError initial_vars (Some (External e)), w1,
                    [EvAttachVolume input (Some e)])).
    { unfold attempt_body, wait_step, issue_step; unfold_calls.
      cbn [Nat.eqb negb initial_vars attachStarted set_lastError]. rewrite Hrej. reflexivity. }
    rewrite B0. unfold result_of, world_of, trace_of. cbn [fst snd].
    rewrite attempts_loop_step. cbv zeta.
    destruct (attempt_body_reissues env blockDevice input volume 1
                (set_lastError initial_vars (Some (External e))) w1 eq_refl)
      as (r & rest & Hb); [discriminate |].
    change (ForAttempt _ _) with (5 * Second) in Hb.
    destruct (fst (result_of _)); unfold trace_of in *; cbn [snd]; rewrite Hb.
    + eexists; eexists; reflexivity.
    + eexists; eexists; reflexivity.
Qed.

Lemma attachVolume_attach_accepted_once_witness :
  exists r rest,
    trace_of (attachVolume (scripted first_call_throttled) "/dev/xvdf" "i-1" (vol []) 3 0%nat)
    = EvAttachVolume (attach_input "/dev/xvdf" "i-1" (vol [])) (Some throttled)
        :: EvSleep (5 * Second)
        :: EvAttachVolume (attach_input "/dev/xvdf" "i-1" (vol [])) r :: rest.
Proof.
  apply (attachVolume_attach_accepted_once (scripted first_call_throttled) "/dev/xvdf" "i-1"
           (vol []) 3 0%nat) with (w1 := 1%nat).
  - reflexivity.
  - lia.
  - reflexivity.
Defined.

(** *** The shape of a run of the loop *)

Lemma last_app_nonempty (t1 t2 : trace) (d : event) :
  t2 <> [] -> List.last (t1 ++ t2) d = List.last t2 d.
Proof.
  intros Hne. induction t1 as [| ev t1 IH]; [reflexivity |].
  cbn [app]. rewrite <- IH. cbn [List.last].
  destruct (t1 ++ t2) eqn:E; [| reflexivity].
  apply app_eq_nil in E. destruct E as [_ E]. contradiction.
Qed.

Lemma attempts_loop_nonempty env blockDevice input volume n attempts v w :
  trace_of (attempts_loop env blockDevice input volume (S n) attempts v w) <> [].
Proof.
  rewrite attempts_loop_step. cbv zeta.
  destruct (attempt_body_shape env blockDevice input volume attempts v w)
    as (seg & Htr & [Hne _] & _).
  assert (H1 : trace_of (attempt_body env blockDevice input volume attempts v w) <> []).
  { rewrite Htr. intros E. apply app_eq_nil in E. destruct E as [_ E]. contradiction. }
  destruct (fst (result_of _)); unfold trace_of at 1; cbn [snd]; [| exact H1].
  intros E. apply app_eq_nil in E. destruct E as [E _]. contradiction.
Qed.

Lemma attempts_loop_shape env blockDevice input volume n :
  forall attempts v w,
    configured (backoff v) ->
    attempt (backoff v) = (attempts - 1)%nat ->
    let r := attempts_loop env blockDevice input volume n attempts v w in
    exists segs,
      trace_of r = join_attempts attempts segs
      /\ Forall attempt_calls segs
      /\ (attachSucceeded v = false ->
          attachSucceeded (snd (result_of r)) = false ->
          length segs = n /\ fst (result_of r) = (attempts + n)%nat).
Proof.
  induction n as [| n IH]; intros attempts v w Hcfg Hcnt.
  - exists []. cbn. repeat split; auto.
  - cbv zeta. rewrite attempts_loop_step. cbv zeta.
    destruct (attempt_body_shape env blockDevice input volume attempts v w)
      as (seg & Htr & Hseg & Hb).
    pose proof (attempt_body_outcome env blockDevice input volume attempts v w) as Hout.
    cbv zeta in Hout.
    set (r1 := attempt_body env blockDevice input volume attempts v w) in *.
    destruct Hcfg as (HF & Hmin & Hmax).
    rewrite (ForAttempt_configured _ _ HF Hmin Hmax), Hcnt in Htr.
    destruct (fst (result_of r1)).
    + destruct Hout as [Hsucc _].
      destruct (IH (S attempts) (snd (result_of r1)) (world_of r1)) as (segs & Htr2 & Hsegs & Hlen).
      * rewrite Hb. destruct (Nat.eqb attempts 0); [repeat split; assumption |].
        unfold Backoff_Duration, configured. cbn [snd Factor Min Max]. repeat split; assumption.
      * rewrite Hb. destruct attempts as [| k]; cbn [Nat.eqb]; [exact Hcnt |].
        unfold Backoff_Duration. cbn [snd attempt]. rewrite Hcnt. lia.
      * exists (seg :: segs). unfold trace_of, result_of, world_of in *. cbn [fst snd] in *.
        split; [| split].
        -- rewrite Htr, Htr2. cbn [join_attempts]. rewrite <- app_assoc. reflexivity.
        -- constructor; assumption.
        -- intros Hv Hfin. rewrite Hsucc in Hlen. destruct (Hlen Hv Hfin) as [L A].
           cbn [length]. split; [congruence | ]. rewrite A. lia.
    + exists [seg]. unfold trace_of, result_of, world_of in *. cbn [fst snd] in *.
      split; [| split].
      * rewrite Htr. cbn [join_attempts]. rewrite app_nil_r. reflexivity.
      * constructor; [assumption | constructor].
      * intros _ Hfin. congruence.
Qed.

Lemma attempts_loop_last_error env blockDevice input volume n :
  forall attempts v w,
    let r := attempts_loop env blockDevice input volume (S n) attempts v w in
    attachSucceeded v = false ->
    attachSucceeded (snd (result_of r)) = false ->
    lastError (snd (result_of r))
    = Some (recorded_error (List.last (trace_of r) (EvSleep 0))).
Proof.
  induction n as [| n IH]; intros attempts v w r Hv; subst r.
  all: rewrite attempts_loop_step; cbv zeta.
  all: pose proof (attempt_body_outcome env blockDevice input volume attempts v w) as Hout;
    cbv zeta in Hout.
  all: set (r1 := attempt_body env blockDevice input volume attempts v w) in *.
  all: destruct (fst (result_of r1)); unfold trace_of, result_of, world_of in *;
    cbn [fst snd] in *; [| intros Hfin; congruence].
  all: destruct Hout as [Hsucc Herr].
  - intros _. cbn. rewrite app_nil_r. exact Herr.
  - intros Hfin.
    rewrite last_app_nonempty by apply (attempts_loop_nonempty env blockDevice input volume).
    apply IH; [congruence | exact Hfin].
Qed.

Lemma attempts_loop_never_succeeds env blockDevice input volume n :
  (forall w0, confirms env blockDevice volume w0 = false) ->
  forall attempts v w,
    attachSucceeded v = false ->
    attachSucceeded
      (snd (result_of (attempts_loop env blockDevice input volume n attempts v w))) = false.
Proof.
  intros Hnever. induction n as [| n IH]; intros attempts v w Hv; [exact Hv |].
  rewrite attempts_loop_step. cbv zeta.
  pose proof (attempt_body_outcome env blockDevice input volume attempts v w) as Hout.
  cbv zeta in Hout.
  rewrite (attempt_body_continues env blockDevice input volume attempts v w Hnever) in *.
  destruct Hout as [Hsucc _]. unfold result_of at 1. cbn [fst snd].
  apply IH. congruence.
Qed.

Lemma sleeps_app (t1 t2 : trace) : sleeps (t1 ++ t2) = sleeps t1 ++ sleeps t2.
Proof. apply flat_map_app. Qed.

Lemma sleeps_attempt_calls (seg : trace) : attempt_calls seg -> sleeps seg = [].
Proof.
  intros [_ H]. induction seg as [| ev seg IH]; [reflexivity |].
  cbn [forallb] in H. apply andb_prop in H. destruct H as [Hev H].
  unfold sleeps in *. cbn [flat_map]. rewrite (IH H).
  destruct ev; try reflexivity. discriminate Hev.
Qed.

Lemma sleeps_join_later (segs : list trace) :
  Forall attempt_calls segs ->
  forall k, sleeps (join_attempts (S k) segs) = map backoff_interval (seq k (length segs)).
Proof.
  induction 1 as [| seg segs Hseg _ IH]; intros k; [reflexivity |].
  cbn [join_attempts Nat.eqb length seq map app].
  replace (S k - 1)%nat with k by lia.
  change (EvSleep (backoff_interval k) :: seg ++ join_attempts (S (S k)) segs)
    with ([EvSleep (backoff_interval k)] ++ seg ++ join_attempts (S (S k)) segs).
  rewrite !sleeps_app, (sleeps_attempt_calls seg Hseg), IH. reflexivity.
Qed.

Lemma sleeps_join (segs : list trace) :
  Forall attempt_calls segs ->
  sleeps (join_attempts 0 segs) = map backoff_interval (seq 0 (length segs - 1)).
Proof.
  intros H. destruct H as [| seg segs Hseg Hsegs]; [reflexivity |].
  cbn [join_attempts Nat.eqb length app].
  rewrite sleeps_app, (sleeps_attempt_calls seg Hseg), (sleeps_join_later segs Hsegs).
  replace (S (length segs) - 1)%nat with (length segs) by lia. reflexivity.
Qed.

Lemma attach_retry_shape env blockDevice instanceID volume maxAttempts w :
  let r := attach_retry env blockDevice instanceID volume maxAttempts w in
  exists segs,
    trace_of r = join_attempts 0 segs
    /\ Forall attempt_calls segs
    /\ (attachSucceeded (snd (result_of r)) = false ->
        length segs = Z.to_nat maxAttempts /\ fst (result_of r) = Z.to_nat maxAttempts).
Proof.
  destruct (attempts_loop_shape env blockDevice (attach_input blockDevice instanceID volume)
              volume (Z.to_nat maxAttempts) 0%nat initial_vars w)
    as (segs & Htr & Hsegs & Hlen).
  - repeat split.
  - reflexivity.
  - exists segs. split; [exact Htr | split; [exact Hsegs |]].
    intros Hfin. apply Hlen; [reflexivity | exact Hfin].
Qed.

(** When the budget is at least one attempt and no attempt succeeds,
    [attachVolume] returns the error recorded by the last call of the run,
    wrapped in "Attaching volume failed". *)
Lemma attachVolume_exhausted env blockDevice instanceID volume maxAttempts w :
  1 <= maxAttempts ->
  already_attached volume instanceID = false ->
  attachSucceeded
    (snd (result_of (attach_retry env blockDevice instanceID volume maxAttempts w))) = false ->
  let r := attachVolume env blockDevice instanceID volume maxAttempts w in
  result_of r
  = Some (WithMessage (recorded_error (List.last (trace_of r) (EvSleep 0)))
                      "Attaching volume failed").
Proof.
  intros Hn Hna Hfail r. subst r. rewrite attachVolume_unfold by assumption. cbv zeta.
  unfold result_of at 1, trace_of at 1. cbn [fst snd]. rewrite Hfail. cbn [negb].
  revert Hfail. unfold attach_retry.
  destruct (Z.to_nat maxAttempts) as [| n] eqn:En; [lia |]. intros Hfail.
  rewrite (attempts_loop_last_error env blockDevice _ volume n 0%nat initial_vars w eq_refl Hfail).
  reflexivity.
Qed.

(** C5, amended with the volume it needs: with a budget of [N >= 1]
    attempts and a volume that is not already attached to the instance, a
    run of [attachVolume] in which no attempt is confirmed -- whatever the
    provider would have answered later -- returns a failure after exactly
    [N] attempts.  Its trace is the calls of
    the [N] attempts, each attempt but the first preceded by one sleep and
    none followed by one; the sleeps are min(100 s, 5 s * 2^k) for
    k = 0 .. N-2, and their total is the sum of the first [N - 1] durations
    of the backoff configured with minimum 5 s, maximum 100 s and factor 2. *)
Theorem attachVolume_never_confirmed env blockDevice instanceID volume maxAttempts w :
  1 <= maxAttempts ->
  already_attached volume instanceID = false ->
  attachSucceeded
    (snd (result_of (attach_retry env blockDevice instanceID volume maxAttempts w))) = false ->
  let r := attachVolume env blockDevice instanceID volume maxAttempts w in
  let attempts :=
    fst (result_of (attach_retry env blockDevice instanceID volume maxAttempts w)) in
  (exists e, result_of r = Some (WithMessage e "Attaching volume failed"))
  /\ Z.of_nat attempts = maxAttempts
  /\ (exists segs,
         Z.of_nat (length segs) = maxAttempts
         /\ Forall attempt_calls segs
         /\ trace_of r = join_attempts 0 segs)
  /\ sleeps (trace_of r) = map backoff_interval (seq 0 (Z.to_nat (maxAttempts - 1)))
  /\ total (sleeps (trace_of r))
     = total (map (ForAttempt initial_backoff) (seq 0 (Z.to_nat (maxAttempts - 1)))).
Proof.
  intros Hn Hna Hfail r attempts.
  destruct (attach_retry_shape env blockDevice instanceID volume maxAttempts w)
    as (segs & Htr & Hsegs & Hlen).
  destruct (Hlen Hfail) as [Hlength Hattempts].
  assert (Htrace : trace_of r = join_attempts 0 segs).
  { subst r. rewrite attachVolume_unfold by assumption. exact Htr. }
  assert (Hsleeps : sleeps (trace_of r)
                    = map backoff_interval (seq 0 (Z.to_nat (maxAttempts - 1)))).
  { rewrite Htrace, (sleeps_join segs Hsegs), Hlength. f_equal. f_equal. lia. }
  split; [| split; [| split; [| split]]].
  - eexists. apply attachVolume_exhausted; assumption.
  - subst attempts. rewrite Hattempts. lia.
  - exists segs. split; [lia | split; assumption].
  - exact Hsleeps.
  - rewrite Hsleeps. f_equal. apply map_ext. intros k. symmetry.
    apply ForAttempt_configured; reflexivity.
Qed.

Lemma attachVolume_never_confirmed_witness :
  sleeps (trace_of (attachVolume (scripted late_attach) "/dev/xvdf" "i-1" (vol []) 3 0%nat))
  = map backoff_interval (seq 0 (Z.to_nat (3 - 1))).
Proof.
  apply (attachVolume_never_confirmed (scripted late_attach) "/dev/xvdf" "i-1" (vol []) 3 0%nat).
  - lia.
  - reflexivity.
  - reflexivity.
Defined.

(** A poll that could never succeed is one way for no attempt to be
    confirmed. *)
Lemma attach_retry_unconfirmable env blockDevice instanceID volume maxAttempts w :
  (forall w0, confirms env blockDevice volume w0 = false) ->
  attachSucceeded
    (snd (result_of (attach_retry env blockDevice instanceID volume maxAttempts w))) = false.
Proof.
  intros Hnever. apply attempts_loop_never_succeeds; [exact Hnever | reflexivity].
Qed.

(** C5 as stated, for every volume, fails: a volume already attached to the
    instance takes the short-circuit, so with a budget of three attempts and
    a describe call that always fails the run makes no attempt and returns
    nil. *)
Lemma attachVolume_never_confirmed_already_attached :
  ~ (forall (env : Env) (blockDevice instanceID : string) (volume : Volume)
            (maxAttempts : Z) (w : World env),
        1 <= maxAttempts ->
        (forall w0, confirms env blockDevice volume w0 = false) ->
        exists e,
          result_of (attachVolume env blockDevice instanceID volume maxAttempts w) = Some e).
Proof.
  intros claim.
  destruct (claim (scripted describe_down) "/dev/xvdf" "i-1"
              (vol [attachment "i-1" "attached"]) 3 0%nat) as [e H].
  - lia.
  - intros w0. reflexivity.
  - discriminate H.
Qed.

(** C4 (the code departs from it): with a budget of zero attempts the run
    ends without a successful attempt, and [attachVolume] returns nil rather
    than a failure: no attempt has recorded an error, [lastError] is still
    nil, and wrapping nil gives nil. *)
Theorem attachVolume_zero_budget_returns_nil :
  let retry := attach_retry (scripted describe_down) "/dev/xvdf" "i-1" (vol []) 0 0%nat in
  let r := attachVolume (scripted describe_down) "/dev/xvdf" "i-1" (vol []) 0 0%nat in
  already_attached (vol []) "i-1" = false
  /\ attachSucceeded (snd (result_of retry)) = false
  /\ lastError (snd (result_of retry)) = nil
  /\ r = (nil, 0%nat, []).
Proof. repeat split. Qed.

(** *** The short-circuit looks at the first attachment only *)

Lemma attempt_body_first_issues env blockDevice input volume attempts v w :
  attachStarted v = false ->
  attempts = 0%nat ->
  exists r rest,
    trace_of (attempt_body env blockDevice input volume attempts v w)
    = EvAttachVolume input r :: rest.
Proof.
  intros Hst Hz. apply Nat.eqb_eq in Hz. revert Hst.
  attempt_cases attempts v; intros Hst; try discriminate Hst; try congruence.
  all: eexists; eexists; reflexivity.
Qed.

(** C10, amended with the budget it needs: when the first attachment of the
    volume names another instance and [maxAttempts >= 1], the short-circuit
    is not taken, whatever the later attachments name, and the first call of
    the run is the attach request for this device, instance and volume. *)
Theorem attachVolume_first_attachment_only env blockDevice instanceID volume maxAttempts w a0 rest :
  Attachments volume = a0 :: rest ->
  InstanceId a0 <> instanceID ->
  1 <= maxAttempts ->
  let tr := trace_of (attachVolume env blockDevice instanceID volume maxAttempts w) in
  already_attached volume instanceID = false
  /\ (exists r tr',
         tr = EvAttachVolume (attach_input blockDevice instanceID volume) r :: tr')
  /\ (1 <= count is_attach tr)%nat.
Proof.
  intros Hatt Hid Hn tr.
  assert (Hna : already_attached volume instanceID = false).
  { unfold already_attached. rewrite Hatt. apply String.eqb_neq, Hid. }
  assert (Hfirst : exists r tr',
             tr = EvAttachVolume (attach_input blockDevice instanceID volume) r :: tr').
  { subst tr. rewrite attachVolume_unfold by assumption. cbv zeta.
    unfold trace_of at 1. cbn [snd]. unfold attach_retry.
    destruct (Z.to_nat maxAttempts) as [| n] eqn:En; [lia |].
    rewrite attempts_loop_step. cbv zeta.
    destruct (attempt_body_first_issues env blockDevice
                (attach_input blockDevice instanceID volume) volume 0%nat initial_vars w
                eq_refl eq_refl) as (r & tr' & Hb).
    destruct (fst (result_of _)); unfold trace_of in *; cbn [snd]; rewrite Hb.
    - eexists; eexists; reflexivity.
    - eexists; eexists; reflexivity. }
  split; [exact Hna | split; [exact Hfirst |]].
  destruct Hfirst as (r & tr' & ->). unfold count. cbn [filter is_attach length]. lia.
Qed.

Lemma attachVolume_first_attachment_only_witness :
  let v := vol [attachment "i-2" "attached"; attachment "i-1" "attached"] in
  let tr := trace_of (attachVolume (scripted still_attaching) "/dev/xvdf" "i-1" v 1 0%nat) in
  already_attached v "i-1" = false
  /\ (exists r tr', tr = EvAttachVolume (attach_input "/dev/xvdf" "i-1" v) r :: tr')
  /\ (1 <= count is_attach tr)%nat.
Proof.
  apply (attachVolume_first_attachment_only (scripted still_attaching) "/dev/xvdf" "i-1"
           (vol [attachment "i-2" "attached"; attachment "i-1" "attached"]) 1 0%nat
           (attachment "i-2" "attached") [attachment "i-1" "attached"]).
  - reflexivity.
  - discriminate.
  - lia.
Defined.

(** C10 as stated, for every [maxAttempts], fails: with a budget of zero
    attempts the short-circuit is not taken and still no attach request is
    issued. *)
Lemma attachVolume_first_attachment_only_zero_budget :
  ~ (forall (env : Env) (blockDevice instanceID : string) (volume : Volume)
            (maxAttempts : Z) (w : World env) (a0 : VolumeAttachment)
            (rest : list VolumeAttachment),
        Attachments volume = a0 :: rest ->
        InstanceId a0 <> instanceID ->
        already_attached volume instanceID = false
        /\ (1 <= count is_attach
                  (trace_of (attachVolume env blockDevice instanceID volume maxAttempts w)))%nat).
Proof.
  intros claim.
  destruct (claim (scripted still_attaching) "/dev/xvdf" "i-1"
              (vol [attachment "i-2" "attached"; attachment "i-1" "attached"]) 0 0%nat
              (attachment "i-2" "attached") [attachment "i-1" "attached"]
              eq_refl) as [_ H].
  - discriminate.
  - vm_compute in H. lia.
Qed.

(** * Further properties of the code *)

(** ** One attempt of [attachVolume], continued *)

Lemma count_app (p : event -> bool) (t1 t2 : trace) :
  count p (t1 ++ t2) = (count p t1 + count p t2)%nat.
Proof. unfold count. rewrite filter_app, length_app. reflexivity. Qed.

Lemma attempt_body_targets env blockDevice input volume attempts v w :
  Forall (targets blockDevice input volume)
         (trace_of (attempt_body env blockDevice input volume attempts v w)).
Proof.
  attempt_cases attempts v.
  all: repeat constructor.
Qed.

Lemma attempt_body_counts env blockDevice input volume attempts v w :
  let tr := trace_of (attempt_body env blockDevice input volume attempts v w) in
  (count is_attach tr <= 1)%nat
  /\ (count is_describe tr <= 1)%nat
  /\ (count is_stat tr <= 1)%nat
  /\ count is_sleep tr = (if Nat.eqb attempts 0 then 0 else 1)%nat.
Proof.
  attempt_cases attempts v.
  all: unfold count; cbn; repeat split; lia.
Qed.

(** An attempt ends the loop exactly when its last call is an [os.Stat] of
    the device that found it, right after a poll that reported the volume
    attached. *)
Lemma attempt_body_confirmation env blockDevice input volume attempts v w :
  let r := attempt_body env blockDevice input volume attempts v w in
  match fst (result_of r) with
  | Break =>
      exists pre out,
        trace_of r = pre ++ [EvDescribeVolumes (poll_input volume) (inl out);
                             EvStat blockDevice None]
        /\ reports_attached out = true
  | Continue => is_found (List.last (trace_of r) (EvSleep 0)) = false
  end.
Proof.
  attempt_cases attempts v.
  all: try reflexivity.
  all: match goal with
       | |- exists pre out, [_; _] = _ /\ _ => exists []
       | |- exists pre out, [?a; _; _] = _ /\ _ => exists [a]
       | |- exists pre out, [?a; ?b; _; _] = _ /\ _ => exists [a; b]
       end.
  all: eexists; split; [reflexivity |].
  all: unfold reports_attached.
  all: repeat match goal with
       | H : Volumes _ = _ |- _ => rewrite H; clear H
       | H : Attachments _ = _ |- _ => rewrite H; clear H
       end.
  all: assumption.
Qed.

(** The accepted attach request of an attempt, counted, and what it does to
    the issuance flag. *)
Lemma attempt_body_accepts env blockDevice input volume attempts v w :
  let r := attempt_body env blockDevice input volume attempts v w in
  let v' := snd (result_of r) in
  count is_accepted_attach (trace_of r)
  = (if attachStarted v then 0 else if attachStarted v' then 1 else 0)%nat
  /\ attachStarted v' = attachStarted v || existsb is_accepted_attach (trace_of r)
  /\ polls_follow_accept (attachStarted v) (trace_of r) = true
  /\ (fst (result_of r) = Break -> attachStarted v' = true).
Proof.
  attempt_cases attempts v.
  all: repeat split; try reflexivity; discriminate.
Qed.

(** ** The loop of [attachVolume], continued *)

Lemma attempts_loop_trace env blockDevice input volume n attempts v w :
  let r1 := attempt_body env blockDevice input volume attempts v w in
  trace_of (attempts_loop env blockDevice input volume (S n) attempts v w)
  = trace_of r1
    ++ match fst (result_of r1) with
       | Break => []
       | Continue =>
           trace_of (attempts_loop env blockDevice input volume n (S attempts)
                                   (snd (result_of r1)) (world_of r1))
       end.
Proof.
  cbv zeta. rewrite attempts_loop_step. cbv zeta.
  destruct (fst (result_of _)); [reflexivity | rewrite app_nil_r; reflexivity].
Qed.

Lemma attempts_loop_vars env blockDevice input volume n attempts v w :
  let r1 := attempt_body env blockDevice input volume attempts v w in
  snd (result_of (attempts_loop env blockDevice input volume (S n) attempts v w))
  = match fst (result_of r1) with
    | Break => snd (result_of r1)
    | Continue =>
        snd (result_of (attempts_loop env blockDevice input volume n (S attempts)
                                      (snd (result_of r1)) (world_of r1)))
    end.
Proof.
  cbv zeta. rewrite attempts_loop_step. cbv zeta.
  destruct (fst (result_of _)); reflexivity.
Qed.

Lemma attempts_loop_targets env blockDevice input volume n :
  forall attempts v w,
    Forall (targets blockDevice input volume)
           (trace_of (attempts_loop env blockDevice input volume n attempts v w)).
Proof.
  induction n as [| n IH]; intros attempts v w; [constructor |].
  rewrite attempts_loop_trace. cbv zeta.
  apply Forall_app. split; [apply attempt_body_targets |].
  destruct (fst (result_of _)); [apply IH | constructor].
Qed.

Lemma attempts_loop_counts env blockDevice input volume n :
  forall attempts v w,
    let tr := trace_of (attempts_loop env blockDevice input volume n attempts v w) in
    (count is_attach tr <= n)%nat
    /\ (count is_describe tr <= n)%nat
    /\ (count is_stat tr <= n)%nat
    /\ (count is_sleep tr <= n - (if Nat.eqb attempts 0 then 1 else 0))%nat.
Proof.
  induction n as [| n IH]; intros attempts v w.
  - cbn. repeat split; lia.
  - cbv zeta. rewrite attempts_loop_trace. cbv zeta.
    destruct (attempt_body_counts env blockDevice input volume attempts v w)
      as (Ha & Hd & Hs & Hz).
    set (r1 := attempt_body env blockDevice input volume attempts v w) in *.
    destruct (IH (S attempts) (snd (result_of r1)) (world_of r1)) as (Ia & Id & Is & Iz).
    cbn [Nat.eqb] in Iz. rewrite !count_app.
    destruct (fst (result_of r1)).
    + destruct (Nat.eqb attempts 0); repeat split; lia.
    + change (count ?p []) with 0%nat.
      destruct (Nat.eqb attempts 0); repeat split; lia.
Qed.

Lemma attempts_loop_success env blockDevice input volume n :
  forall attempts v w,
    let r := attempts_loop env blockDevice input volume n attempts v w in
    attachSucceeded v = false ->
    attachSucceeded (snd (result_of r)) = true ->
    exists pre out,
      trace_of r = pre ++ [EvDescribeVolumes (poll_input volume) (inl out);
                           EvStat blockDevice None]
      /\ reports_attached out = true.
Proof.
  induction n as [| n IH]; intros attempts v w r Hv; subst r.
  - cbn. congruence.
  - rewrite attempts_loop_trace, attempts_loop_vars. cbv zeta.
    pose proof (attempt_body_confirmation env blockDevice input volume attempts v w) as Hc.
    pose proof (attempt_body_outcome env blockDevice input volume attempts v w) as Ho.
    cbv zeta in Hc, Ho.
    set (r1 := attempt_body env blockDevice input volume attempts v w) in *.
    destruct (fst (result_of r1)).
    + intros Hfin. destruct Ho as [Hs _].
      destruct (IH (S attempts) (snd (result_of r1)) (world_of r1)) as (pre & out & Ht & Hr);
        [congruence | exact Hfin |].
      exists (trace_of r1 ++ pre), out. rewrite Ht, app_assoc. split; [reflexivity | exact Hr].
    + intros _. rewrite app_nil_r. exact Hc.
Qed.

Lemma attempts_loop_failure env blockDevice input volume n :
  forall attempts v w,
    let r := attempts_loop env blockDevice input volume (S n) attempts v w in
    attachSucceeded v = false ->
    attachSucceeded (snd (result_of r)) = false ->
    is_found (List.last (trace_of r) (EvSleep 0)) = false.
Proof.
  induction n as [| n IH]; intros attempts v w r Hv; subst r.
  all: rewrite attempts_loop_trace, attempts_loop_vars; cbv zeta.
  all: pose proof (attempt_body_confirmation env blockDevice input volume attempts v w) as Hc;
    pose proof (attempt_body_outcome env blockDevice input volume attempts v w) as Ho;
    cbv zeta in Hc, Ho.
  all: set (r1 := attempt_body env blockDevice input volume attempts v w) in *.
  all: destruct (fst (result_of r1)); [| intros Hfin; congruence].
  all: destruct Ho as [Hs _].
  - intros _. cbn [attempts_loop]. unfold ret, trace_of at 2. cbn [snd].
    rewrite app_nil_r. exact Hc.
  - intros Hfin.
    rewrite last_app_nonempty by apply (attempts_loop_nonempty env blockDevice input volume).
    apply IH; [congruence | exact Hfin].
Qed.

Lemma polls_follow_accept_app (a : bool) (t1 t2 : trace) :
  polls_follow_accept a (t1 ++ t2)
  = polls_follow_accept a t1
    && polls_follow_accept (a || existsb is_accepted_attach t1) t2.
Proof.
  revert a. induction t1 as [| ev t1 IH]; intros a; cbn [app polls_follow_accept existsb].
  - rewrite orb_false_r. reflexivity.
  - rewrite IH, orb_assoc, andb_assoc. reflexivity.
Qed.

Lemma existsb_count (p : event -> bool) (tr : trace) :
  existsb p tr = true -> (1 <= count p tr)%nat.
Proof.
  unfold count. induction tr as [| ev tr IH]; cbn [existsb filter]; [discriminate |].
  destruct (p ev); cbn [orb length]; [lia | exact IH].
Qed.

Lemma polls_follow_accept_split (a : bool) (pre post : trace) (ev : event) :
  polls_follow_accept a (pre ++ ev :: post) = true ->
  is_describe ev || is_stat ev = true ->
  a || existsb is_accepted_attach pre = true.
Proof.
  rewrite polls_follow_accept_app. cbn [polls_follow_accept].
  intros H Hev. rewrite Hev in H.
  apply andb_prop in H. destruct H as [_ H]. apply andb_prop in H. apply H.
Qed.

Lemma attempts_loop_accepts env blockDevice input volume n :
  forall attempts v w,
    let r := attempts_loop env blockDevice input volume n attempts v w in
    let v' := snd (result_of r) in
    count is_accepted_attach (trace_of r)
    = (if attachStarted v then 0 else if attachStarted v' then 1 else 0)%nat
    /\ attachStarted v' = attachStarted v || existsb is_accepted_attach (trace_of r)
    /\ polls_follow_accept (attachStarted v) (trace_of r) = true
    /\ (attachSucceeded v = false -> attachSucceeded v' = true -> attachStarted v' = true).
Proof.
  induction n as [| n IH]; intros attempts v w.
  - cbn. rewrite orb_false_r. destruct (attachStarted v); repeat split; congruence.
  - cbv zeta. rewrite attempts_loop_trace, attempts_loop_vars. cbv zeta.
    destruct (attempt_body_accepts env blockDevice input volume attempts v w)
      as (Hc & Hs & Hp & Hb).
    pose proof (attempt_body_outcome env blockDevice input volume attempts v w) as Ho.
    cbv zeta in Ho.
    set (r1 := attempt_body env blockDevice input volume attempts v w) in *.
    destruct (IH (S attempts) (snd (result_of r1)) (world_of r1)) as (Ic & Is & Ip & Ib).
    set (r2 := attempts_loop env blockDevice input volume n (S attempts)
                             (snd (result_of r1)) (world_of r1)) in *.
    destruct (fst (result_of r1)).
    + destruct Ho as [Ho _]. rewrite count_app, existsb_app, polls_follow_accept_app.
      rewrite Hc, Ic, Is, Hp. rewrite Is in Ib. rewrite Hs in Ip, Ib |- *. rewrite Ip.
      rewrite orb_assoc.
      destruct (attachStarted v); cbn [orb andb];
        destruct (existsb is_accepted_attach (trace_of r1)); cbn [orb andb];
        destruct (existsb is_accepted_attach (trace_of r2)); cbn [orb andb];
        repeat split; intros; try (apply Ib; congruence).
    + rewrite app_nil_r. repeat split; auto.
Qed.

(** ** [attachVolume]: what a run can and cannot do *)

Lemma attach_retry_succeeded env blockDevice instanceID volume maxAttempts w :
  1 <= maxAttempts ->
  already_attached volume instanceID = false ->
  result_of (attachVolume env blockDevice instanceID volume maxAttempts w) = nil ->
  attachSucceeded
    (snd (result_of (attach_retry env blockDevice instanceID volume maxAttempts w))) = true.
Proof.
  intros Hn Hna Hnil.
  destruct (attachSucceeded _) eqn:Hs; [reflexivity |].
  pose proof (attachVolume_exhausted env blockDevice instanceID volume maxAttempts w
                Hn Hna Hs) as He.
  cbv zeta in He. rewrite Hnil in He. discriminate He.
Qed.

Lemma attachVolume_confirmed_trace env blockDevice instanceID volume maxAttempts w :
  1 <= maxAttempts ->
  already_attached volume instanceID = false ->
  let r := attachVolume env blockDevice instanceID volume maxAttempts w in
  result_of r = nil ->
  (exists pre out,
      trace_of r = pre ++ [EvDescribeVolumes (poll_input volume) (inl out);
                           EvStat blockDevice None]
      /\ reports_attached out = true)
  /\ count is_accepted_attach (trace_of r) = 1%nat.
Proof.
  intros Hn Hna r Hnil.
  pose proof (attach_retry_succeeded env blockDevice instanceID volume maxAttempts w
                Hn Hna Hnil) as Hs.
  subst r. rewrite attachVolume_unfold by assumption. cbv zeta.
  unfold trace_of at 1 3. cbn [snd]. unfold attach_retry in *. split.
  - apply attempts_loop_success; [reflexivity | exact Hs].
  - destruct (attempts_loop_accepts env blockDevice (attach_input blockDevice instanceID volume)
                volume (Z.to_nat maxAttempts) 0%nat initial_vars w) as (Hc & _ & _ & Hst).
    rewrite Hc. cbn [initial_vars attachStarted]. rewrite (Hst eq_refl Hs). reflexivity.
Qed.

(** X1: with a budget of at least one attempt and a volume not already
    attached, [attachVolume] returns nil only after a confirmation: the last
    two calls of the run are a poll that reports the volume attached and an
    [os.Stat] that finds the device, and the run had exactly one attach
    request accepted. *)
Theorem attachVolume_success_is_confirmed env blockDevice instanceID volume maxAttempts w :
  1 <= maxAttempts ->
  already_attached volume instanceID = false ->
  let r := attachVolume env blockDevice instanceID volume maxAttempts w in
  result_of r = nil ->
  (exists pre out,
      trace_of r = pre ++ [EvDescribeVolumes (poll_input volume) (inl out);
                           EvStat blockDevice None]
      /\ reports_attached out = true)
  /\ count is_accepted_attach (trace_of r) = 1%nat.
Proof.
  intros Hn Hna r Hnil.
  apply (attachVolume_confirmed_trace env blockDevice instanceID volume maxAttempts w
           Hn Hna Hnil).
Qed.

Lemma attachVolume_success_is_confirmed_witness :
  count is_accepted_attach
    (trace_of (attachVolume (scripted first_call_throttled) "/dev/xvdf" "i-1" (vol []) 3 0%nat))
  = 1%nat.
Proof.
  apply (attachVolume_success_is_confirmed (scripted first_call_throttled) "/dev/xvdf" "i-1"
           (vol []) 3 0%nat).
  - lia.
  - reflexivity.
  - reflexivity.
Defined.

(** X2: [attachVolume] never polls the volume and never looks for the
    device before the provider has accepted its attach request: in every
    run, each [DescribeVolumes] and each [os.Stat] comes after exactly one
    accepted attach request. *)
Theorem attachVolume_polls_after_accept env blockDevice instanceID volume maxAttempts w pre ev post :
  trace_of (attachVolume env blockDevice instanceID volume maxAttempts w) = pre ++ ev :: post ->
  is_describe ev || is_stat ev = true ->
  count is_accepted_attach pre = 1%nat.
Proof.
  intros Htr Hev.
  pose proof (attachVolume_accepted_is_last env blockDevice instanceID volume maxAttempts w)
    as Hlast.
  apply accepted_is_last_count in Hlast. rewrite Htr, count_app in Hlast.
  assert (Hex : existsb is_accepted_attach pre = true).
  { destruct (already_attached volume instanceID) eqn:Hatt.
    - unfold attachVolume in Htr. rewrite Hatt in Htr. cbn in Htr.
      destruct pre; discriminate Htr.
    - rewrite attachVolume_unfold in Htr by assumption. cbv zeta in Htr.
      unfold trace_of at 1 in Htr. cbn [snd] in Htr. unfold attach_retry in Htr.
      destruct (attempts_loop_accepts env blockDevice
                  (attach_input blockDevice instanceID volume) volume
                  (Z.to_nat maxAttempts) 0%nat initial_vars w) as (_ & _ & Hp & _).
      rewrite Htr in Hp. cbn [initial_vars attachStarted] in Hp.
      apply (polls_follow_accept_split false pre post ev Hp Hev). }
  apply existsb_count in Hex. lia.
Qed.

Lemma attachVolume_polls_after_accept_witness :
  count is_accepted_attach
    [EvAttachVolume (attach_input "/dev/xvdf" "i-1" (vol [])) (Some throttled);
     EvSleep (5 * Second);
     EvAttachVolume (attach_input "/dev/xvdf" "i-1" (vol [])) None] = 1%nat.
Proof.
  apply (attachVolume_polls_after_accept (scripted first_call_throttled) "/dev/xvdf" "i-1"
           (vol []) 3 0%nat _
           (EvDescribeVolumes (poll_input (vol []))
              (inl {| Volumes := [vol [attachment "i-1" "attached"]] |}))
           [EvStat "/dev/xvdf" None]); reflexivity.
Defined.

Lemma targets_no_command blockDevice input volume (tr : trace) :
  Forall (targets blockDevice input volume) tr -> count is_command tr = 0%nat.
Proof.
  unfold count. induction 1 as [| ev tr Hev _ IH]; [reflexivity |].
  destruct ev; cbn [filter is_command]; try exact IH. contradiction Hev.
Qed.

Lemma attachVolume_all_targets env blockDevice instanceID volume maxAttempts w :
  Forall (targets blockDevice (attach_input blockDevice instanceID volume) volume)
         (trace_of (attachVolume env blockDevice instanceID volume maxAttempts w)).
Proof.
  destruct (already_attached volume instanceID) eqn:Hatt.
  - unfold attachVolume. rewrite Hatt. constructor.
  - rewrite attachVolume_unfold by assumption. apply attempts_loop_targets.
Qed.

(** X3: every call of a run of [attachVolume] is about what it was given:
    each attach request names the flag [blockDevice], the instance and the
    id of the volume, each poll asks for that volume id alone, each
    [os.Stat] is of [blockDevice]; and the run executes no command. *)
Theorem attachVolume_targets env blockDevice instanceID volume maxAttempts w :
  let tr := trace_of (attachVolume env blockDevice instanceID volume maxAttempts w) in
  Forall (targets blockDevice (attach_input blockDevice instanceID volume) volume) tr
  /\ count is_command tr = 0%nat.
Proof.
  intros tr.
  pose proof (attachVolume_all_targets env blockDevice instanceID volume maxAttempts w) as H.
  split; [exact H | apply (targets_no_command _ _ _ _ H)].
Qed.

(** X4: [attachVolume] stays within its budget: a run makes at most
    [maxAttempts] attach requests, at most [maxAttempts] polls and at most
    [maxAttempts] checks of the device (none at all when
    [maxAttempts <= 0]). *)
Theorem attachVolume_call_budget env blockDevice instanceID volume maxAttempts w :
  let tr := trace_of (attachVolume env blockDevice instanceID volume maxAttempts w) in
  Z.of_nat (count is_attach tr) <= Z.max 0 maxAttempts
  /\ Z.of_nat (count is_describe tr) <= Z.max 0 maxAttempts
  /\ Z.of_nat (count is_stat tr) <= Z.max 0 maxAttempts.
Proof.
  intros tr. subst tr. destruct (already_attached volume instanceID) eqn:Hatt.
  - unfold attachVolume. rewrite Hatt. cbn. repeat split; lia.
  - rewrite attachVolume_unfold by assumption. cbv zeta.
    destruct (attempts_loop_counts env blockDevice (attach_input blockDevice instanceID volume)
                volume (Z.to_nat maxAttempts) 0%nat initial_vars w) as (Ha & Hd & Hs & _).
    unfold attach_retry, trace_of in *. cbn [snd]. repeat split; lia.
Qed.

Lemma sleeps_length (tr : trace) : length (sleeps tr) = count is_sleep tr.
Proof.
  unfold sleeps, count. induction tr as [| ev tr IH]; [reflexivity |].
  cbn [flat_map filter]. destruct ev; cbn [is_sleep app length]; rewrite ?IH; reflexivity.
Qed.

Lemma backoff_interval_bounds (k : nat) :
  5 * Second <= backoff_interval k <= 100 * Second.
Proof.
  unfold backoff_interval.
  assert (Hp : 1 <= 2 ^ Z.of_nat k)
    by (change 1 with (2 ^ 0); apply Z.pow_le_mono_r; lia).
  change (5 * Second) with 5000000000. change (100 * Second) with 100000000000.
  lia.
Qed.

Lemma total_bounded (ds : list Duration) (bound : Duration) :
  Forall (fun d => d <= bound) ds -> total ds <= Z.of_nat (length ds) * bound.
Proof.
  unfold total. induction 1 as [| d ds Hd _ IH]; [cbn; lia |].
  cbn [fold_right length]. lia.
Qed.

(** X5: in every run of [attachVolume] the k-th sleep lasts
    min(100 s, 5 s * 2^(k-1)), whatever the calls answer; there are fewer
    sleeps than [maxAttempts], each lasts between 5 s and 100 s, and the run
    sleeps at most [(maxAttempts - 1) * 100 s] in total. *)
Theorem attachVolume_sleep_schedule env blockDevice instanceID volume maxAttempts w :
  let ds := sleeps (trace_of (attachVolume env blockDevice instanceID volume maxAttempts w)) in
  ds = map backoff_interval (seq 0 (length ds))
  /\ Z.of_nat (length ds) <= Z.max 0 (maxAttempts - 1)
  /\ Forall (fun d => 5 * Second <= d <= 100 * Second) ds
  /\ total ds <= Z.max 0 (maxAttempts - 1) * (100 * Second).
Proof.
  intros ds.
  assert (Hsched : ds = map backoff_interval (seq 0 (length ds))
                   /\ Z.of_nat (length ds) <= Z.max 0 (maxAttempts - 1)).
  { subst ds. destruct (already_attached volume instanceID) eqn:Hatt.
    - unfold attachVolume. rewrite Hatt. cbn. split; [reflexivity | lia].
    - rewrite attachVolume_unfold by assumption. cbv zeta.
      destruct (attach_retry_shape env blockDevice instanceID volume maxAttempts w)
        as (segs & Htr & Hsegs & _).
      unfold trace_of in *. cbn [snd].
      split.
      + rewrite Htr, (sleeps_join segs Hsegs), length_map, length_seq. reflexivity.
      + rewrite sleeps_length.
        destruct (attempts_loop_counts env blockDevice
                    (attach_input blockDevice instanceID volume) volume
                    (Z.to_nat maxAttempts) 0%nat initial_vars w) as (_ & _ & _ & Hz).
        cbn [Nat.eqb] in Hz. unfold attach_retry, trace_of in *. lia. }
  destruct Hsched as [Hmap Hlen].
  assert (Hall : Forall (fun d => 5 * Second <= d <= 100 * Second) ds).
  { rewrite Hmap. apply Forall_forall. intros d Hin. apply in_map_iff in Hin.
    destruct Hin as (k & <- & _). apply backoff_interval_bounds. }
  split; [exact Hmap | split; [exact Hlen | split; [exact Hall |]]].
  assert (Hle : Forall (fun d => d <= 100 * Second) ds).
  { apply Forall_impl with (2 := Hall). intros d Hd. lia. }
  apply total_bounded in Hle.
  change (100 * Second) with 100000000000 in *. nia.
Qed.

(** X6: with a budget of at least one attempt and a volume not already
    attached, the result of [attachVolume] is read off the last call of the
    run: nil when it is an [os.Stat] that found the device; otherwise the
    error of that call, or "Max attempts exceeded" when that call did not
    fail, wrapped in "Attaching volume failed".  Errors of earlier attempts
    are forgotten. *)
Theorem attachVolume_result_by_last_call env blockDevice instanceID volume maxAttempts w :
  1 <= maxAttempts ->
  already_attached volume instanceID = false ->
  let r := attachVolume env blockDevice instanceID volume maxAttempts w in
  let final := List.last (trace_of r) (EvSleep 0) in
  result_of r
  = if is_found final then nil
    else Some (WithMessage (recorded_error final) "Attaching volume failed").
Proof.
  intros Hn Hna r final.
  destruct (attachSucceeded
              (snd (result_of (attach_retry env blockDevice instanceID volume maxAttempts w))))
    eqn:Hs.
  - assert (Hnil : result_of r = nil).
    { subst r. rewrite attachVolume_unfold by assumption. cbv zeta.
      unfold result_of at 1. cbn [fst]. rewrite Hs. reflexivity. }
    destruct (attachVolume_confirmed_trace env blockDevice instanceID volume maxAttempts w
                Hn Hna Hnil) as [(pre & out & Htr & _) _].
    subst final. fold r in Htr. rewrite Htr, last_app_nonempty by discriminate.
    exact Hnil.
  - pose proof (attachVolume_exhausted env blockDevice instanceID volume maxAttempts w
                  Hn Hna Hs) as He.
    cbv zeta in He. fold r in He. fold final in He. rewrite He.
    assert (Hf : is_found final = false).
    { subst final r. rewrite attachVolume_unfold by assumption. cbv zeta.
      unfold trace_of at 1. cbn [snd]. unfold attach_retry in *.
      destruct (Z.to_nat maxAttempts) as [| n] eqn:En; [lia |].
      apply attempts_loop_failure; [reflexivity | exact Hs]. }
    rewrite Hf. reflexivity.
Qed.

Lemma attachVolume_result_by_last_call_witness :
  result_of (attachVolume (scripted still_attaching) "/dev/xvdf" "i-1" (vol []) 4 0%nat)
  = Some (WithMessage (New "Max attempts exceeded") "Attaching volume failed").
Proof.
  apply (attachVolume_result_by_last_call (scripted still_attaching) "/dev/xvdf" "i-1"
           (vol []) 4 0%nat).
  - lia.
  - reflexivity.
Defined.

(** ** [volumeFromID], continued *)

Lemma volumeFromID_run env volumeID az w :
  let answer := svc_DescribeVolumes env (locate_input volumeID az) w in
  volumeFromID env volumeID az w
  = (match fst answer with
     | inr e => (None, Some (External e))
     | inl out =>
         match Volumes out with
         | [] => (None, Some (New ("cannot find volume with volume-id: " ++ volumeID)%string))
         | v :: _ => (Some v, nil)
         end
     end,
     snd answer,
     [EvDescribeVolumes (locate_input volumeID az) (fst answer)]).
Proof.
  unfold volumeFromID; unfold_calls.
  destruct (svc_DescribeVolumes env (locate_input volumeID az) w) as [[out | e] w'];
    cbn [fst snd]; [destruct (Volumes out) |]; reflexivity.
Qed.

Lemma volumeFromID_volume_or_error env volumeID az w :
  let r := result_of (volumeFromID env volumeID az w) in
  fst r = None <-> snd r <> nil.
Proof.
  rewrite volumeFromID_run. cbv zeta. unfold result_of. cbn [fst].
  destruct (fst (svc_DescribeVolumes env (locate_input volumeID az) w)) as [out | e];
    [destruct (Volumes out) |]; cbn [fst snd]; split; intros H; try discriminate;
    try reflexivity; contradiction H; reflexivity.
Qed.

(** X7: [volumeFromID] makes exactly one call, a [DescribeVolumes] filtered
    by volume-id and availability-zone, whatever it answers; an error of the
    provider is returned as it is, with no volume and no retry; and the
    function returns a volume exactly when it returns a nil error. *)
Theorem volumeFromID_one_call env volumeID az w :
  let run := volumeFromID env volumeID az w in
  let answer := svc_DescribeVolumes env (locate_input volumeID az) w in
  trace_of run = [EvDescribeVolumes (locate_input volumeID az) (fst answer)]
  /\ world_of run = snd answer
  /\ (forall e, fst answer = inr e -> result_of run = (None, Some (External e)))
  /\ (fst (result_of run) = None <-> snd (result_of run) <> nil).
Proof.
  intros run answer.
  pose proof (volumeFromID_volume_or_error env volumeID az w) as Hiff.
  subst run answer. cbv zeta in Hiff.
  split; [| split; [| split; [| exact Hiff]]].
  - rewrite volumeFromID_run. reflexivity.
  - rewrite volumeFromID_run. reflexivity.
  - intros e He. rewrite volumeFromID_run. cbv zeta. rewrite He. reflexivity.
Qed.

Lemma volumeFromID_one_call_witness :
  result_of (volumeFromID (scripted describe_down) "vol-1" "eu-west-1a" 0%nat)
  = (None, Some (External throttled)).
Proof.
  apply (volumeFromID_one_call (scripted describe_down) "vol-1" "eu-west-1a" 0%nat).
  reflexivity.
Defined.

(** ** [ensureVolumeMounted], continued *)

Lemma ensureVolumeMounted_run env blockDevice mountPoint w :
  let mkdir := exec_Command env (mkdir_argv mountPoint) w in
  let mount := exec_Command env (mount_argv blockDevice mountPoint) (snd mkdir) in
  let table := exec_Command env mount_table_argv (snd mount) in
  let ev_mkdir := EvExec (mkdir_argv mountPoint) (fst (fst mkdir)) (snd (fst mkdir)) in
  let ev_mount :=
    EvExec (mount_argv blockDevice mountPoint) (fst (fst mount)) (snd (fst mount)) in
  let ev_table := EvExec mount_table_argv (fst (fst table)) (snd (fst table)) in
  ensureVolumeMounted env blockDevice mountPoint w
  = match snd (fst mkdir) with
    | Some e =>
        (Some (WithMessage (External e) "mountpoint creation failed"), snd mkdir, [ev_mkdir])
    | None =>
        match snd (fst mount) with
        | None => (nil, snd mount, [ev_mkdir; ev_mount])
        | Some _ =>
            (match snd (fst table) with
             | Some e => Some (WithMessage (External e) cannot_mount)
             | None => nil
             end,
             snd table, [ev_mkdir; ev_mount; ev_table])
        end
    end.
Proof.
  unfold ensureVolumeMounted; unfold_calls.
  destruct (exec_Command env (mkdir_argv mountPoint) w) as [[o1 [e1 |]] w1];
    cbn [fst snd]; [reflexivity |].
  destruct (exec_Command env (mount_argv blockDevice mountPoint) w1) as [[o2 [e2 |]] w2];
    cbn [fst snd]; [| reflexivity].
  destruct (exec_Command env mount_table_argv w2) as [[o3 [e3 |]] w3];
    cbn [fst snd]; [reflexivity |].
  destruct (Contains o3 (mount_entry blockDevice mountPoint)); reflexivity.
Qed.

Lemma mkdir_is_not_mount blockDevice mountPoint out r :
  is_exec (mount_argv blockDevice mountPoint) (EvExec (mkdir_argv mountPoint) out r) = false.
Proof.
  unfold is_exec, mount_argv, mkdir_argv.
  destruct (list_eq_dec string_dec _ _) as [E | _]; [discriminate E | reflexivity].
Qed.

Lemma mount_table_is_not_mount blockDevice mountPoint out r :
  is_exec (mount_argv blockDevice mountPoint) (EvExec mount_table_argv out r) = false.
Proof.
  unfold is_exec, mount_argv, mount_table_argv.
  destruct (list_eq_dec string_dec _ _) as [E | _]; [discriminate E | reflexivity].
Qed.

(** X8: [ensureVolumeMounted] returns nil exactly when [mkdir] succeeded and
    either the mount command or the read of the mount table succeeded: what
    the mount table says does not change the result. *)
Theorem ensureVolumeMounted_nil_iff env blockDevice mountPoint w :
  let mkdir := exec_Command env (mkdir_argv mountPoint) w in
  let mount := exec_Command env (mount_argv blockDevice mountPoint) (snd mkdir) in
  let table := exec_Command env mount_table_argv (snd mount) in
  result_of (ensureVolumeMounted env blockDevice mountPoint w) = nil
  <-> snd (fst mkdir) = None /\ (snd (fst mount) = None \/ snd (fst table) = None).
Proof.
  cbv zeta. rewrite ensureVolumeMounted_run. cbv zeta.
  destruct (snd (fst (exec_Command env (mkdir_argv mountPoint) w))) as [e1 |].
  - unfold result_of. cbn [fst]. split; [discriminate | intros [H _]; discriminate H].
  - destruct (snd (fst (exec_Command env (mount_argv blockDevice mountPoint) _))) as [e2 |].
    + destruct (snd (fst (exec_Command env mount_table_argv _))) as [e3 |];
        unfold result_of; cbn [fst].
      * split; [discriminate | intros [_ [H | H]]; discriminate H].
      * split; auto.
    + unfold result_of. cbn [fst]. split; auto.
Qed.

Lemma ensureVolumeMounted_nil_iff_witness :
  result_of (ensureVolumeMounted (scripted (mount_refused proc_mounts_other))
                                 "/dev/xvdf" "/data" 0%nat) = nil.
Proof.
  apply (ensureVolumeMounted_nil_iff (scripted (mount_refused proc_mounts_other))
           "/dev/xvdf" "/data" 0%nat).
  split; [reflexivity | right; reflexivity].
Defined.

(** X9: [ensureVolumeMounted] goes no further than it has to.  When [mkdir]
    fails its error is returned wrapped in "mountpoint creation failed" and
    nothing else is run; when the mount command succeeds the mount table is
    not read; when the read of the mount table fails its error is returned
    wrapped in the "cannot mount or verify" message; and no run executes the
    mount command more than once. *)
Theorem ensureVolumeMounted_stops_early env blockDevice mountPoint w :
  let mkdir := exec_Command env (mkdir_argv mountPoint) w in
  let mount := exec_Command env (mount_argv blockDevice mountPoint) (snd mkdir) in
  let table := exec_Command env mount_table_argv (snd mount) in
  let run := ensureVolumeMounted env blockDevice mountPoint w in
  (forall e, snd (fst mkdir) = Some e ->
     result_of run = Some (WithMessage (External e) "mountpoint creation failed")
     /\ trace_of run = [EvExec (mkdir_argv mountPoint) (fst (fst mkdir)) (Some e)])
  /\ (snd (fst mkdir) = None -> snd (fst mount) = None ->
      result_of run = nil
      /\ trace_of run = [EvExec (mkdir_argv mountPoint) (fst (fst mkdir)) None;
                         EvExec (mount_argv blockDevice mountPoint) (fst (fst mount)) None])
  /\ (forall e e', snd (fst mkdir) = None -> snd (fst mount) = Some e ->
      snd (fst table) = Some e' ->
      result_of run = Some (WithMessage (External e') cannot_mount))
  /\ (mount_runs blockDevice mountPoint (trace_of run) <= 1)%nat.
Proof.
  cbv zeta. rewrite ensureVolumeMounted_run. cbv zeta.
  split; [| split; [| split]].
  - intros e He. rewrite He. split; reflexivity.
  - intros H1 H2. rewrite H1, H2. split; reflexivity.
  - intros e e' H1 H2 H3. rewrite H1, H2, H3. reflexivity.
  - unfold mount_runs, count.
    destruct (snd (fst (exec_Command env (mkdir_argv mountPoint) w))) as [e1 |];
      [| destruct (snd (fst (exec_Command env (mount_argv blockDevice mountPoint) _)))
           as [e2 |]];
      unfold trace_of; cbn [snd filter];
      rewrite ?mkdir_is_not_mount, ?mount_table_is_not_mount, ?is_exec_same;
      cbn [length]; lia.
Qed.

Lemma ensureVolumeMounted_stops_early_witness :
  let run := ensureVolumeMounted (scripted (disk true true)) "/dev/xvdf" "/data" 0%nat in
  result_of run = nil
  /\ trace_of run = [EvExec (mkdir_argv "/data") "" None;
                     EvExec (mount_argv "/dev/xvdf" "/data") "" None].
Proof.
  apply (ensureVolumeMounted_stops_early (scripted (disk true true)) "/dev/xvdf" "/data" 0%nat);
    reflexivity.
Defined.

(** ** [main] *)

Lemma mcount_app (p : main_event -> bool) (t1 t2 : list main_event) :
  mcount p (t1 ++ t2) = (mcount p t1 + mcount p t2)%nat.
Proof. unfold mcount. rewrite filter_app, length_app. reflexivity. Qed.

Lemma mcount_calls (p : main_event -> bool) (tr : trace) :
  mcount p (map EvCall tr) = count (fun ev => p (EvCall ev)) tr.
Proof.
  unfold mcount, count. induction tr as [| ev tr IH]; [reflexivity |].
  cbn [map filter]. destruct (p (EvCall ev)); cbn [length]; rewrite IH; reflexivity.
Qed.

Lemma count_none (p : event -> bool) (tr : trace) :
  Forall (fun ev => p ev = false) tr -> count p tr = 0%nat.
Proof.
  unfold count. induction 1 as [| ev tr Hev _ IH]; [reflexivity |].
  cbn [filter]. rewrite Hev. exact IH.
Qed.

Lemma ensureVolumeInited_run env blockDevice fsType w :
  let probe := exec_Command env (blkid_argv blockDevice) w in
  let format := exec_Command env (mkfs_argv blockDevice fsType) (snd probe) in
  let ev_probe := EvExec (blkid_argv blockDevice) (fst (fst probe)) (snd (fst probe)) in
  let ev_format :=
    EvExec (mkfs_argv blockDevice fsType) (fst (fst format)) (snd (fst format)) in
  ensureVolumeInited env blockDevice fsType w
  = match snd (fst probe) with
    | None => (nil, snd probe, [ev_probe])
    | Some _ =>
        (Wrap (lift_ext (snd (fst format))) ("mkfs." ++ fsType ++ " failed")%string,
         snd format, [ev_probe; ev_format])
    end.
Proof.
  unfold ensureVolumeInited; unfold_calls.
  destruct (exec_Command env (blkid_argv blockDevice) w) as [[o1 [e1 |]] w1];
    cbn [fst snd]; [| reflexivity].
  destruct (exec_Command env (mkfs_argv blockDevice fsType) w1) as [[o2 [e2 |]] w2];
    reflexivity.
Qed.

(** The three functions keep to their side: the locator and [attachVolume]
    run no command, the initialiser and the mount reconciler make no call to
    the provider. *)
Lemma volumeFromID_no_command env volumeID az w :
  count is_command (trace_of (volumeFromID env volumeID az w)) = 0%nat.
Proof. rewrite volumeFromID_run. reflexivity. Qed.

Lemma attachVolume_no_command env blockDevice instanceID volume maxAttempts w :
  count is_command (trace_of (attachVolume env blockDevice instanceID volume maxAttempts w))
  = 0%nat.
Proof.
  apply (targets_no_command blockDevice (attach_input blockDevice instanceID volume) volume).
  apply attachVolume_all_targets.
Qed.

Lemma ensureVolumeInited_only_commands env blockDevice fsType w :
  Forall (fun ev => is_command ev = true)
         (trace_of (ensureVolumeInited env blockDevice fsType w)).
Proof.
  rewrite ensureVolumeInited_run. cbv zeta.
  destruct (snd (fst (exec_Command env (blkid_argv blockDevice) w)));
    repeat constructor.
Qed.

Lemma ensureVolumeMounted_only_commands env blockDevice mountPoint w :
  Forall (fun ev => is_command ev = true)
         (trace_of (ensureVolumeMounted env blockDevice mountPoint w)).
Proof.
  rewrite ensureVolumeMounted_run. cbv zeta.
  destruct (snd (fst (exec_Command env (mkdir_argv mountPoint) w)));
    [| destruct (snd (fst (exec_Command env (mount_argv blockDevice mountPoint) _)))];
    repeat constructor.
Qed.

Lemma only_commands_no_ec2 (tr : trace) :
  Forall (fun ev => is_command ev = true) tr ->
  mcount is_ec2_call (map EvCall tr) = 0%nat
  /\ mcount is_attach_call (map EvCall tr) = 0%nat
  /\ mcount is_metadata (map EvCall tr) = 0%nat.
Proof.
  intros H. rewrite !mcount_calls. repeat split; apply count_none;
    apply Forall_impl with (2 := H); intros [] Hev; try discriminate Hev; reflexivity.
Qed.

(** [main], stage by stage. *)
Ltac main_cases :=
  cbv zeta;
  unfold main, init_and_mount, attach_stage, pbind, NewSession, GetMetadata, call, must,
    pret, panic;
  repeat (match goal with
    | |- context [session_NewSession ?H ?W] =>
        destruct (session_NewSession H W) as [[?e|] ?w] eqn:?
    | |- context [metadata_GetMetadata ?H ?K ?W] =>
        destruct (metadata_GetMetadata H K W) as [[?value|?e] ?w] eqn:?
    | |- context [useEBS ?F] => destruct (useEBS F) eqn:?
    | |- context [volumeFromID ?E ?I ?A ?W] =>
        destruct (volumeFromID E I A W) as [[[[?volume|] [?e|]] ?w] ?t] eqn:?
    | |- context [attachVolume ?E ?B ?I ?V ?N ?W] =>
        destruct (attachVolume E B I V N W) as [[[?e|] ?w] ?t] eqn:?
    | |- context [ensureVolumeInited ?E ?B ?T ?W] =>
        destruct (ensureVolumeInited E B T W) as [[[?e|] ?w] ?t] eqn:?
    | |- context [ensureVolumeMounted ?E ?B ?T ?W] =>
        destruct (ensureVolumeMounted E B T W) as [[[?e|] ?w] ?t] eqn:?
    end; cbn [fst snd]).

(** What is known of the traces of the stages of a run of [main]. *)
Ltac stage_traces :=
  repeat match goal with
    | H : ensureVolumeInited ?E ?B ?T ?W = (_, _, ?t) |- _ =>
        let F := fresh "Hinit" in
        pose proof (ensureVolumeInited_only_commands E B T W) as F;
        rewrite H in F; unfold trace_of in F; cbn [snd] in F; clear H
    | H : ensureVolumeMounted ?E ?B ?T ?W = (_, _, ?t) |- _ =>
        let F := fresh "Hmount" in
        pose proof (ensureVolumeMounted_only_commands E B T W) as F;
        rewrite H in F; unfold trace_of in F; cbn [snd] in F; clear H
    | H : volumeFromID ?E ?I ?A ?W = (_, _, ?t) |- _ =>
        let F := fresh "Hlocate" in
        pose proof (volumeFromID_no_command E I A W) as F;
        rewrite H in F; unfold trace_of in F; cbn [snd] in F; clear H
    | H : attachVolume ?E ?B ?I ?V ?N ?W = (_, _, ?t) |- _ =>
        let F := fresh "Hattach" in
        pose proof (attachVolume_no_command E B I V N W) as F;
        rewrite H in F; unfold trace_of in F; cbn [snd] in F; clear H
    end.

Lemma mcount_cons (p : main_event -> bool) (ev : main_event) (tr : list main_event) :
  mcount p (ev :: tr) = ((if p ev then 1 else 0) + mcount p tr)%nat.
Proof. unfold mcount. cbn [filter]. destruct (p ev); reflexivity. Qed.

Ltac count_events :=
  rewrite ?mcount_app, ?mcount_cons;
  repeat match goal with
    | F : Forall (fun ev => is_command ev = true) ?t |- _ =>
        let H1 := fresh in let H2 := fresh in let H3 := fresh in
        destruct (only_commands_no_ec2 t F) as (H1 & H2 & H3);
        rewrite ?H1, ?H2, ?H3; clear F H1 H2 H3
    end;
  change (mcount ?p []) with 0%nat;
  cbn [is_ec2_call is_metadata is_attach_call is_command_run].

(** X11: with the flag [useEBS] off, [main] makes no call to EC2 and does
    not ask for the instance id; it still asks the metadata service for the
    availability zone, once, and panics with the error of that call when it
    fails, before the device is probed. *)
Theorem main_without_ebs host f w :
  useEBS f = false ->
  let tr := main_trace (main host f w) in
  mcount is_ec2_call tr = 0%nat
  /\ (mcount is_metadata tr <= 1)%nat
  /\ (forall e w1 w2,
         session_NewSession host w = (None, w1) ->
         metadata_GetMetadata host "placement/availability-zone" w1 = (inr e, w2) ->
         main host f w
         = (inr (PanicError (External e)), w2,
            [EvNewSession None; EvGetMetadata "placement/availability-zone" (inr e)])).
Proof.
  intros Hf tr. subst tr. split; [| split].
  - unfold main_trace, main, attach_stage. rewrite Hf. main_cases.
    all: stage_traces; count_events; reflexivity.
  - unfold main_trace, main, attach_stage. rewrite Hf. main_cases.
    all: stage_traces; count_events; lia.
  - intros e w1 w2 Hs Hm. unfold main, pbind, NewSession, GetMetadata.
    rewrite Hs. cbn [fst snd]. rewrite Hm. reflexivity.
Qed.

Lemma main_without_ebs_witness :
  main (no_metadata_host (disk true true)) flags_without_ebs 0%nat
  = (inr (PanicError (External (SysError "connection refused"))), 2%nat,
     [EvNewSession None;
      EvGetMetadata "placement/availability-zone" (inr (SysError "connection refused"))]).
Proof.
  apply (main_without_ebs (no_metadata_host (disk true true)) flags_without_ebs 0%nat eq_refl)
    with (w1 := 1%nat); reflexivity.
Defined.

Ltac no_commands :=
  rewrite ?mcount_app, ?mcount_cons, ?mcount_calls;
  change (fun ev => is_command_run (EvCall ev)) with is_command;
  repeat match goal with
    | F : count is_command ?t = 0%nat |- _ => rewrite F; clear F
    end;
  change (mcount ?p []) with 0%nat;
  cbn [is_command_run].

(** X12: with the flag [useEBS] on, [main] runs no command -- no probe, no
    format, no mount -- unless the session was created, both metadata
    lookups answered, [volumeFromID] returned a volume and [attachVolume]
    returned nil. *)
Theorem main_commands_need_attach host f w :
  useEBS f = true ->
  (1 <= mcount is_command_run (main_trace (main host f w)))%nat ->
  exists w1 az w2 volume w3 t instanceID w4 w5 t',
    session_NewSession host w = (None, w1)
    /\ metadata_GetMetadata host "placement/availability-zone" w1 = (inl az, w2)
    /\ volumeFromID (host_env host) (ebsVolumeID f) az w2 = ((Some volume, nil), w3, t)
    /\ metadata_GetMetadata host "instance-id" w3 = (inl instanceID, w4)
    /\ attachVolume (host_env host) (blockDevice f) instanceID volume (maxAttempts f) w4
       = (nil, w5, t').
Proof.
  intros Hf. unfold main_trace, main, attach_stage. rewrite Hf. main_cases.
  all: intros Hc.
  all: first [ do 10 eexists; repeat split; eassumption
             | exfalso; revert Hc; stage_traces; no_commands; lia ].
Qed.

Lemma main_commands_need_attach_witness :
  exists w1 az w2 volume w3 t instanceID w4 w5 t',
    session_NewSession (scripted_host first_call_throttled "eu-west-1a" "i-1") 0%nat
    = (None, w1)
    /\ metadata_GetMetadata (scripted_host first_call_throttled "eu-west-1a" "i-1")
         "placement/availability-zone" w1 = (inl az, w2)
    /\ volumeFromID (scripted first_call_throttled) "vol-1" az w2 = ((Some volume, nil), w3, t)
    /\ metadata_GetMetadata (scripted_host first_call_throttled "eu-west-1a" "i-1")
         "instance-id" w3 = (inl instanceID, w4)
    /\ attachVolume (scripted first_call_throttled) "/dev/xvdf" instanceID volume 3 w4
       = (nil, w5, t').
Proof.
  apply (main_commands_need_attach (scripted_host first_call_throttled "eu-west-1a" "i-1")
           flags_three_attempts 0%nat).
  - reflexivity.
  - vm_compute. lia.
Defined.

(** X13: when [volumeFromID] returns an error -- the provider's, or its own
    "cannot find volume" -- [main] panics with that error as it is, having
    made one metadata lookup and the one describe call: it does not ask for
    the instance id, makes no attach request and runs no command. *)
Theorem main_volume_not_located host f w w1 az w2 e :
  useEBS f = true ->
  session_NewSession host w = (None, w1) ->
  metadata_GetMetadata host "placement/availability-zone" w1 = (inl az, w2) ->
  let locate := volumeFromID (host_env host) (ebsVolumeID f) az w2 in
  snd (result_of locate) = Some e ->
  main host f w
  = (inr (PanicError e), world_of locate,
     [EvNewSession None;
      EvGetMetadata "placement/availability-zone" (inl az);
      EvCall (EvDescribeVolumes (locate_input (ebsVolumeID f) az)
                (fst (svc_DescribeVolumes (host_env host)
                        (locate_input (ebsVolumeID f) az) w2)))]).
Proof.
  intros Hf Hs Hm locate He. subst locate.
  unfold main, attach_stage, pbind, NewSession, GetMetadata, call, must, pret, panic.
  rewrite Hs. cbn [fst snd]. rewrite Hm. cbn [fst snd]. rewrite Hf.
  rewrite volumeFromID_run in *. cbv zeta in *.
  unfold result_of, world_of in *. cbn [fst snd] in *.
  rewrite He. reflexivity.
Qed.

Lemma main_volume_not_located_witness :
  main (scripted_host (inventory []) "eu-west-1a" "i-1") flags_three_attempts 0%nat
  = (inr (PanicError (New "cannot find volume with volume-id: vol-1")), 3%nat,
     [EvNewSession None;
      EvGetMetadata "placement/availability-zone" (inl "eu-west-1a");
      EvCall (EvDescribeVolumes (locate_input "vol-1" "eu-west-1a")
                (inl {| Volumes := [] |}))]).
Proof.
  apply (main_volume_not_located (scripted_host (inventory []) "eu-west-1a" "i-1")
           flags_three_attempts 0%nat 1%nat "eu-west-1a" 2%nat); reflexivity.
Defined.

Lemma attachVolume_empty_budget env blockDevice instanceID volume maxAttempts w :
  maxAttempts <= 0 ->
  already_attached volume instanceID = false ->
  attachVolume env blockDevice instanceID volume maxAttempts w = (nil, w, []).
Proof.
  intros Hn Hna. rewrite attachVolume_unfold by assumption. unfold attach_retry.
  replace (Z.to_nat maxAttempts) with 0%nat by lia. reflexivity.
Qed.

Lemma init_and_mount_trace host f w :
  let tr := main_trace (init_and_mount host f w) in
  mcount is_attach_call tr = 0%nat
  /\ exists out r rest, tr = EvCall (EvExec (blkid_argv (blockDevice f)) out r) :: rest.
Proof.
  cbv zeta. split.
  - unfold main_trace. main_cases. all: stage_traces; count_events; reflexivity.
  - unfold main_trace, init_and_mount, pbind, call.
    rewrite ensureVolumeInited_run. cbv zeta.
    destruct (snd (fst (exec_Command _ (blkid_argv (blockDevice f)) w))) as [e1 |];
      [destruct (Wrap _ _) as [e2 |] |]; cbn [fst snd map app must panic pret nil].
    2, 3: destruct (ensureVolumeMounted _ _ _ _) as [[[e3 |] w3] t3]; cbn [fst snd app].
    all: do 3 eexists; reflexivity.
Qed.

(** X14: with [maxAttempts <= 0] and a volume that is not attached to the
    instance, [main] makes no attach request at all and goes straight from
    the instance-id lookup to probing the device: the nil that
    [attachVolume] returns for an empty budget lets the run continue. *)
Theorem main_zero_budget_skips_attach host f w w1 az w2 volume w3 t instanceID w4 :
  useEBS f = true ->
  maxAttempts f <= 0 ->
  session_NewSession host w = (None, w1) ->
  metadata_GetMetadata host "placement/availability-zone" w1 = (inl az, w2) ->
  volumeFromID (host_env host) (ebsVolumeID f) az w2 = ((Some volume, nil), w3, t) ->
  metadata_GetMetadata host "instance-id" w3 = (inl instanceID, w4) ->
  already_attached volume instanceID = false ->
  let tr := main_trace (main host f w) in
  mcount is_attach_call tr = 0%nat
  /\ exists out r rest,
       tr = [EvNewSession None; EvGetMetadata "placement/availability-zone" (inl az)]
            ++ map EvCall t
            ++ [EvGetMetadata "instance-id" (inl instanceID);
                EvCall (EvExec (blkid_argv (blockDevice f)) out r)]
            ++ rest.
Proof.
  intros Hf Hn Hs Hm Hl Hi Hna tr. subst tr.
  assert (Ht : mcount is_attach_call (map EvCall t) = 0%nat).
  { pose proof (volumeFromID_run (host_env host) (ebsVolumeID f) az w2) as Hr.
    cbv zeta in Hr. rewrite Hl in Hr. injection Hr as _ _ ->. reflexivity. }
  destruct (init_and_mount_trace host f w4) as (Hc & out & r & rest & Htail).
  cbv zeta in Hc. rewrite Htail in Hc.
  unfold main_trace, main, attach_stage, pbind, NewSession, GetMetadata, call, must, pret, panic
    in *.
  rewrite Hs. cbn [fst snd]. rewrite Hm. cbn [fst snd]. rewrite Hf, Hl. cbn [fst snd nil].
  rewrite Hi. cbn [fst snd].
  rewrite (attachVolume_empty_budget (host_env host) (blockDevice f) instanceID volume
             (maxAttempts f) w4 Hn Hna).
  cbn [fst snd map app nil].
  destruct (init_and_mount host f w4) as [[res w5] tail]. cbn [snd] in Htail. subst tail.
  cbn [snd]. rewrite ?app_nil_r. split.
  - rewrite !mcount_cons, !mcount_app, Ht, !mcount_cons. cbn [is_attach_call].
    rewrite mcount_cons in Hc. cbn [is_attach_call] in Hc.
    change (mcount is_attach_call []) with 0%nat. lia.
  - exists out, r, rest. rewrite <- app_assoc. reflexivity.
Qed.

Lemma main_zero_budget_skips_attach_witness :
  mcount is_attach_call
    (main_trace (main (scripted_host (inventory [vol []]) "eu-west-1a" "i-1")
                      flags_zero_attempts 0%nat)) = 0%nat.
Proof.
  apply (main_zero_budget_skips_attach (scripted_host (inventory [vol []]) "eu-west-1a" "i-1")
           flags_zero_attempts 0%nat 1%nat "eu-west-1a" 2%nat (vol []) 3%nat
           [EvDescribeVolumes (locate_input "vol-1" "eu-west-1a") (inl {| Volumes := [vol []] |})]
           "i-1" 4%nat); first [reflexivity | discriminate].
Defined.
